(** * SpaceX launch dashboard: the filter / aggregate pipeline of
      [spacex-dash-app.py]

    The script loads one CSV file into a pandas frame [df], builds a Dash
    layout (site dropdown, pie chart, payload slider, scatter chart) and
    registers two callbacks, [update_pie] and [update_scatter].

    The embedding keeps the string-keyed wiring of the script: columns are
    looked up by header name, callbacks are registered under component ids,
    and a lookup that pandas or plotly would reject raises.  pandas and
    plotly themselves are modelled by the small part of their documented
    behaviour that the script calls. *)

From Stdlib Require Import ZArith Lia DecimalString.
From stdpp Require Import base option list strings sorting.

Local Open Scope Z_scope.
#[local] Set Warnings "-clear-no-such-hyp".

(** ** Cells, exceptions *)

(** A cell of a frame.  The script only meets integers (outcome class,
    counts), text (sites, booster categories, labels) and the missing value
    that pandas returns for the minimum of an empty column.  Payload masses
    are taken as integers (kilograms). *)
Inductive cell :=
  | Int (z : Z)
  | Str (s : string)
  | NaN.

#[global] Instance cell_eq_dec : EqDecision cell.
Proof. solve_decision. Defined.

Inductive exn :=
  | KeyError (key : string)
  | ValueError (msg : string).

Inductive result (A : Type) :=
  | Ok (a : A)
  | Raise (e : exn).
Arguments Ok {A} a.
Arguments Raise {A} e.

#[global] Instance result_ret : MRet result := λ A a, Ok a.
#[global] Instance result_fmap : FMap result := λ A B f m,
  match m with
  | Ok a => Ok (f a)
  | Raise e => Raise e
  end.
#[global] Instance result_bind : MBind result := λ A B f m,
  match m with
  | Ok a => f a
  | Raise e => Raise e
  end.

(** ** The dataset *)

(** One row of the CSV file, restricted to the four columns the script
    reads.  As in the data model every record carries all four attributes:
    a row with a missing cell in one of them is not represented. *)
Record LaunchRecord := {
  launch_site : string;
  payload_mass : Z;
  class : Z;
  booster_category : string;
}.

#[global] Instance LaunchRecord_eq_dec : EqDecision LaunchRecord.
Proof. solve_decision. Defined.

Abbreviation Dataset := (list LaunchRecord).

(** ** A small pandas *)

(** A frame: a header and rows of cells. *)
Record DataFrame := {
  columns : list string;
  rows : list (list cell);
}.

Definition row_of (r : LaunchRecord) : list cell :=
  [Str (launch_site r); Int (payload_mass r); Int (class r);
   Str (booster_category r)].

(** The frame view of a list of records, under the CSV headers. *)
Definition frame_of (d : Dataset) : DataFrame :=
  {| columns := ["Launch Site"; "Payload Mass (kg)"; "class";
                 "Booster Version Category"];
     rows := row_of <$> d |}.

Fixpoint get_loc (name : string) (cols : list string) : option nat :=
  match cols with
  | [] => None
  | c :: cols =>
      if decide (c = name) then Some 0%nat else S <$> get_loc name cols
  end.

Definition cell_at (i : nat) (row : list cell) : cell := default NaN (row !! i).

(** [f[name]]: the column under a header, [KeyError] when there is none. *)
Definition getitem (f : DataFrame) (name : string) : result (list cell) :=
  match get_loc name (columns f) with
  | Some i => Ok (cell_at i <$> rows f)
  | None => Raise (KeyError name)
  end.

(** A series: its name, the name of its index, and (index label, value)
    entries. *)
Record Series := {
  s_name : option string;
  s_index_name : option string;
  s_items : list (cell * cell);
}.

(** [unique]: the distinct values in order of first appearance. *)
Fixpoint unique_from {A} `{EqDecision A} (seen l : list A) : list A :=
  match l with
  | [] => []
  | x :: l =>
      if decide (x ∈ seen) then unique_from seen l
      else x :: unique_from (x :: seen) l
  end.

Definition unique {A} `{EqDecision A} (l : list A) : list A := unique_from [] l.

Definition count_occ_of {A} `{EqDecision A} (x : A) (l : list A) : nat :=
  length (filter (λ y, y = x) l).

(** Descending order on counts, the order [value_counts] sorts by. *)
Definition count_ge (a b : cell * nat) : Prop := (b.2 ≤ a.2)%nat.

#[global] Instance count_ge_dec : RelDecision count_ge.
Proof. intros a b. unfold count_ge. apply _. Defined.

(** Sorting by descending count, keeping the order of appearance among
    equal counts: an entry moves behind those of a larger count only. *)
Fixpoint insert_count (x : cell * nat) (l : list (cell * nat))
    : list (cell * nat) :=
  match l with
  | [] => [x]
  | y :: l' =>
      if decide (count_ge x y) then x :: l else y :: insert_count x l'
  end.

Definition sort_counts (l : list (cell * nat)) : list (cell * nat) :=
  foldr insert_count [] l.

(** The two naming conventions of [Series.value_counts]: up to pandas 1.x
    the result keeps the name of the counted series and has an unnamed
    index; from pandas 2.0 the result is named ["count"] and its index
    takes the name of the counted series. *)
Inductive pandas_api := Pandas1 | Pandas2.

(** [s.value_counts()] for a column named [name]: missing values dropped,
    one entry per distinct value in order of first appearance, then sorted
    by descending count, values of equal count staying in their order of
    first appearance. *)
Definition value_counts (api : pandas_api) (name : string) (col : list cell)
    : Series :=
  let vals := filter (λ c, c ≠ NaN) col in
  let counted := (λ v, (v, count_occ_of v vals)) <$> unique vals in
  let sorted := sort_counts counted in
  {| s_name := match api with Pandas1 => Some name | Pandas2 => Some "count" end;
     s_index_name := match api with Pandas1 => None | Pandas2 => Some name end;
     s_items := (λ p, (p.1, Int (Z.of_nat p.2))) <$> sorted |}.

Fixpoint dict_get {K V} `{EqDecision K} (k : K) (d : list (K * V)) : option V :=
  match d with
  | [] => None
  | (k', v) :: d => if decide (k' = k) then Some v else dict_get k d
  end.

(** [d.get(k, k)]: labels that are not keys of the mapping stay. *)
Definition relabel {K} `{EqDecision K} (d : list (K * K)) (k : K) : K :=
  default k (dict_get k d).

(** [s.rename(index=d)] *)
Definition rename_index (d : list (cell * cell)) (s : Series) : Series :=
  {| s_name := s_name s;
     s_index_name := s_index_name s;
     s_items := prod_map (relabel d) id <$> s_items s |}.

(** [s.reset_index()]: the index becomes a column, called after the index
    name, or ["index"] when the index has none; the values column is called
    after the series, or ["0"]. *)
Definition reset_index (s : Series) : DataFrame :=
  {| columns := [default "index" (s_index_name s); default "0" (s_name s)];
     rows := (λ p, [p.1; p.2]) <$> s_items s |}.

(** [f.rename(columns=d)] *)
Definition rename_columns (d : list (string * string)) (f : DataFrame)
    : DataFrame :=
  {| columns := relabel d <$> columns f; rows := rows f |}.

(** [s.min()] and [s.max()] over an integer column; [NaN] when empty. *)
Definition series_min (l : list Z) : cell :=
  match l with
  | [] => NaN
  | x :: l => Int (foldr Z.min x l)
  end.

Definition series_max (l : list Z) : cell :=
  match l with
  | [] => NaN
  | x :: l => Int (foldr Z.max x l)
  end.

(** [sorted(...)] on strings: ascending in the lexicographic order of the
    characters. *)
Definition sorted (l : list string) : list string := merge_sort String.le l.

(** ** A small plotly express *)

(** plotly rejects a column argument that is not a header of the frame. *)
Definition px_column (arg : string) (f : DataFrame) (name : string)
    : result nat :=
  match get_loc name (columns f) with
  | Some i => Ok i
  | None =>
      Raise (ValueError ("Value of '" +:+ arg +:+
                         "' is not the name of a column in 'data_frame'"))
  end.

(** A pie trace carries the raw label and value arrays. *)
Record PieFigure := {
  pie_labels : list cell;
  pie_values : list cell;
  pie_title : string;
}.

Definition px_pie (f : DataFrame) (values names title : string)
    : result PieFigure :=
  iv ← px_column "values" f values;
  inm ← px_column "names" f names;
  mret {| pie_labels := cell_at inm <$> rows f;
          pie_values := cell_at iv <$> rows f;
          pie_title := title |}.

Definition sumZ (l : list Z) : Z := foldr Z.add 0 l.

Definition numeric (c : cell) : Z :=
  match c with
  | Int z => z
  | _ => 0
  end.

(** The slices of a pie trace: entries with the same label are summed, one
    slice per distinct label in order of first appearance. *)
Definition slices (fig : PieFigure) : list (cell * Z) :=
  let entries := zip (pie_labels fig) (pie_values fig) in
  (λ k, (k, sumZ ((numeric ∘ snd) <$> filter (λ e, e.1 = k) entries)))
    <$> unique (pie_labels fig).

(** A point of a scatter trace: x, y, the colour group and the hover
    columns ([customdata]). *)
Record ScatterPoint := {
  pt_x : cell;
  pt_y : cell;
  pt_color : cell;
  pt_hover : list cell;
}.

#[global] Instance ScatterPoint_eq_dec : EqDecision ScatterPoint.
Proof. solve_decision. Defined.

(** One trace per colour group; the parallel arrays x, y and customdata of
    plotly are kept as one list of points.  [px_scatter] below is the
    behaviour of [px.scatter] for a text colour column without missing
    cells, the only kind [frame_of] gives: one trace per distinct value, in
    order of first appearance, every row kept. *)
Record ScatterTrace := {
  tr_name : cell;
  tr_points : list ScatterPoint;
}.

Record ScatterFigure := {
  sc_traces : list ScatterTrace;
  sc_xaxis : string;
  sc_yaxis : string;
  sc_title : string;
}.

Fixpoint px_columns (arg : string) (f : DataFrame) (names : list string)
    : result (list nat) :=
  match names with
  | [] => Ok []
  | n :: names =>
      i ← px_column arg f n;
      rest ← px_columns arg f names;
      mret (i :: rest)
  end.

Definition px_scatter (f : DataFrame) (x y color : string)
    (hover_data : list string) (labels : list (string * string))
    (title : string) : result ScatterFigure :=
  ix ← px_column "x" f x;
  iy ← px_column "y" f y;
  ic ← px_column "color" f color;
  ih ← px_columns "hover_data" f hover_data;
  let point row :=
    {| pt_x := cell_at ix row; pt_y := cell_at iy row;
       pt_color := cell_at ic row;
       pt_hover := (λ i, cell_at i row) <$> ih |} in
  let pts := point <$> rows f in
  mret {| sc_traces :=
            (λ k, {| tr_name := k;
                     tr_points := filter (λ p, pt_color p = k) pts |})
              <$> unique (pt_color <$> pts);
          sc_xaxis := relabel labels x;
          sc_yaxis := relabel labels y;
          sc_title := title |}.

Definition points (fig : ScatterFigure) : list ScatterPoint :=
  sc_traces fig ≫= tr_points.

(** ** The callbacks *)

Section callbacks.
(** The pandas in use and the loaded frame, the module global [df]. *)
Variable api : pandas_api.
Variable df : Dataset.

Definition update_pie (selected_site : string) : result PieFigure :=
  if decide (selected_site = "ALL") then
    px_pie (frame_of df) "class" "Launch Site"
      "Total Successful Launches by Site"
  else
    let site_df := filter (λ r, launch_site r = selected_site) df in
    col ← getitem (frame_of site_df) "class";
    let outcome :=
      rename_columns [("index", "Outcome"); ("class", "Count")]
        (reset_index
           (rename_index [(Int 0, Str "Failure"); (Int 1, Str "Success")]
              (value_counts api "class" col))) in
    px_pie outcome "Count" "Outcome"
      ("Launch Outcomes for " +:+ selected_site).

Definition update_scatter (selected_site : string) (payload_range : list Z)
    : result ScatterFigure :=
  match payload_range with
  | [lo; hi] =>
      let data :=
        filter (λ r, lo ≤ payload_mass r ∧ payload_mass r ≤ hi) df in
      let data :=
        if decide (selected_site ≠ "ALL")
        then filter (λ r, launch_site r = selected_site) data
        else data in
      px_scatter (frame_of data) "Payload Mass (kg)" "class"
        "Booster Version Category" ["Launch Site"]
        [("class", "Launch Outcome (1=Success, 0=Failure)")]
        (if decide (selected_site = "ALL")
         then "Correlation between Payload and Success for All Sites"
         else "Correlation between Payload and Success for "
                +:+ selected_site)
  | [] => Raise (ValueError "not enough values to unpack (expected 2, got 0)")
  | [_] => Raise (ValueError "not enough values to unpack (expected 2, got 1)")
  | _ => Raise (ValueError "too many values to unpack (expected 2)")
  end.
End callbacks.

(** ** The layout *)

Record DropdownOption := {
  opt_label : string;
  opt_value : string;
}.

Record Dropdown := {
  dd_id : string;
  dd_options : list DropdownOption;
  dd_value : string;
  dd_placeholder : string;
  dd_searchable : bool;
}.

Record RangeSlider := {
  rs_id : string;
  rs_min : Z;
  rs_max : Z;
  rs_step : Z;
  rs_marks : list (Z * string);
  rs_value : list cell;
}.

(** The children of the top-level [html.Div]; styles are presentation only
    and left out. *)
Inductive component :=
  | H1 (text : string)
  | CDropdown (d : Dropdown)
  | Br
  | Graph (id : string)
  | P (text : string)
  | CRangeSlider (s : RangeSlider).

(** [range(start, stop, step)] for a positive step. *)
Definition range (start stop step : Z) : list Z :=
  (λ k, start + step * Z.of_nat k)
    <$> seq 0 (Z.to_nat ((stop - start + step - 1) / step)).

(** [str(i)] on an integer. *)
Definition str (i : Z) : string := NilZero.string_of_int (Z.to_int i).

Definition site_dropdown (df : Dataset) : Dropdown :=
  {| dd_id := "site-dropdown";
     dd_options :=
       [{| opt_label := "All Sites"; opt_value := "ALL" |}]
       ++ ((λ s, {| opt_label := s; opt_value := s |})
             <$> sorted (unique (launch_site <$> df)));
     dd_value := "ALL";
     dd_placeholder := "Select a Launch Site...";
     dd_searchable := true |}.

Definition payload_slider (pmin pmax : cell) : RangeSlider :=
  {| rs_id := "payload-slider";
     rs_min := 0;
     rs_max := 10000;
     rs_step := 1000;
     rs_marks := (λ i, (i, str i)) <$> range 0 10001 2500;
     rs_value := [pmin; pmax] |}.

Definition layout (df : Dataset) (pmin pmax : cell) : list component :=
  [ H1 "SpaceX Launch Records Dashboard";
    CDropdown (site_dropdown df);
    Br;
    Graph "success-pie-chart";
    Br;
    P "Payload range (Kg):";
    CRangeSlider (payload_slider pmin pmax);
    Br;
    Graph "success-payload-scatter-chart" ].

Fixpoint find_dropdown (l : list component) : option Dropdown :=
  match l with
  | [] => None
  | CDropdown d :: _ => Some d
  | _ :: l => find_dropdown l
  end.

Fixpoint find_slider (l : list component) : option RangeSlider :=
  match l with
  | [] => None
  | CRangeSlider s :: _ => Some s
  | _ :: l => find_slider l
  end.

(** ** The callback registry *)

(** A property value sent by the browser. *)
Inductive value :=
  | VStr (s : string)
  | VRange (l : list Z)
  | VNone.

Inductive Figure :=
  | Pie (f : PieFigure)
  | Scatter (f : ScatterFigure).

(** A component property, [(id, property)]. *)
Definition prop := (string * string)%type.

(** [@app.callback(Output(..), Input(..) ...)] over a function of the
    input values; the function reads the global frame. *)
Record Callback := {
  cb_output : prop;
  cb_inputs : list prop;
  cb_func : pandas_api → Dataset → list value → result Figure;
}.

(** A cleared dropdown sends [None]: it is not "ALL" and equals the site of
    no row, so the callbacks then work on an empty selection of rows and
    print [None] in their title.  Values of a shape the components of the
    layout never send are refused. *)
Definition pie_callback : Callback :=
  {| cb_output := ("success-pie-chart", "figure");
     cb_inputs := [("site-dropdown", "value")];
     cb_func := λ api df args,
       match args with
       | [VStr selected_site] => Pie <$> update_pie api df selected_site
       | [VNone] => Pie <$> update_pie api [] "None"
       | _ => Raise (ValueError "update_pie: unexpected arguments")
       end |}.

Definition scatter_callback : Callback :=
  {| cb_output := ("success-payload-scatter-chart", "figure");
     cb_inputs := [("site-dropdown", "value"); ("payload-slider", "value")];
     cb_func := λ api df args,
       match args with
       | [VStr selected_site; VRange payload_range] =>
           Scatter <$> update_scatter df selected_site payload_range
       | [VNone; VRange payload_range] =>
           Scatter <$> update_scatter [] "None" payload_range
       | _ => Raise (ValueError "update_scatter: unexpected arguments")
       end |}.

(** The process state once the module body has run: the globals [df],
    [pmin], [pmax] and the Dash application. *)
Record App := {
  app_df : Dataset;
  app_pmin : cell;
  app_pmax : cell;
  app_layout : list component;
  app_callbacks : list Callback;
}.

(** ** The module body *)

Definition CSV_PATH : string := "spacex_launch_dash.csv".

(** The files of the current folder: the frame [read_csv] parses from each
    path that exists. *)
Definition World := string → option Dataset.

Inductive effect :=
  | PathExists (path : string)
  | ReadCsv (path : string)
  | Run (host : string) (port : Z).

(** How a script ends: it runs to its end with a value, or leaves through
    [SystemExit] with an exit status and a message on standard error. *)
Inductive outcome (A : Type) :=
  | Done (a : A)
  | SystemExit (status : Z) (stderr : string).
Arguments Done {A} a.
Arguments SystemExit {A} status stderr.

(** A script reads the world and appends its effects to the trace. *)
Definition Script (A : Type) : Type :=
  World → list effect → outcome A * list effect.

#[global] Instance Script_ret : MRet Script := λ A a w t, (Done a, t).
#[global] Instance Script_bind : MBind Script := λ A B f m w t,
  match m w t with
  | (Done a, t') => f a w t'
  | (SystemExit c msg, t') => (SystemExit c msg, t')
  end.

Definition os_path_exists (path : string) : Script bool :=
  λ w t, (Done (bool_decide (is_Some (w path))), t ++ [PathExists path]).

(** [sys.exit(msg)] with a string: the message goes to standard error and
    the exit status is 1. *)
Definition sys_exit {A} (msg : string) : Script A :=
  λ w t, (SystemExit 1 msg, t).

(** An uncaught exception ends the process with status 1 as well. *)
Definition pd_read_csv (path : string) : Script Dataset :=
  λ w t,
    match w path with
    | Some d => (Done d, t ++ [ReadCsv path])
    | None => (SystemExit 1 "FileNotFoundError", t ++ [ReadCsv path])
    end.

(** [app.run(host, port)] starts the listener and serves from then on. *)
Definition app_run (app : App) (host : string) (port : Z) : Script App :=
  λ w t, (Done app, t ++ [Run host port]).

(** What the module body binds once the file is read: [df], [pmin],
    [pmax], the layout and the two registered callbacks. *)
Definition build_app (df : Dataset) : App :=
  let pmin := series_min (payload_mass <$> df) in
  let pmax := series_max (payload_mass <$> df) in
  {| app_df := df; app_pmin := pmin; app_pmax := pmax;
     app_layout := layout df pmin pmax;
     app_callbacks := [pie_callback; scatter_callback] |}.

(** The module body; [is_main] is [__name__ == "__main__"]. *)
Definition module_body (is_main : bool) : Script App :=
  found ← os_path_exists CSV_PATH;
  _ ← (if negb found
       then sys_exit ("ERROR: '" +:+ CSV_PATH +:+
                      "' not found in the current folder.")
       else mret ());
  df ← pd_read_csv CSV_PATH;
  let app := build_app df in
  if is_main then app_run app "0.0.0.0" 8050 else mret app.

Definition start (w : World) (is_main : bool) : outcome App * list effect :=
  module_body is_main w [].

(** ** Serving *)

(** The selection held by the browser. *)
Record FilterState := {
  fs_site : string;
  fs_lo : Z;
  fs_hi : Z;
}.

Definition prop_value (fs : FilterState) (p : prop) : value :=
  if decide (p = ("site-dropdown", "value")) then VStr (fs_site fs)
  else if decide (p = ("payload-slider", "value"))
       then VRange [fs_lo fs; fs_hi fs]
  else VNone.

(** The outputs to recompute when a property changes: those of the
    callbacks that list it as an input. *)
Definition triggered (app : App) (changed : prop) : list prop :=
  cb_output <$> filter (λ cb, changed ∈ cb_inputs cb) (app_callbacks app).

Definition fire (api : pandas_api) (app : App) (fs : FilterState)
    (cb : Callback) : result Figure :=
  cb_func cb api (app_df app) (prop_value fs <$> cb_inputs cb).

(** ** Vocabulary of the properties *)

(** The invariant of the data model: the outcome class is 0 or 1. *)
Definition binary (d : Dataset) : Prop :=
  ∀ r, r ∈ d → class r = 0 ∨ class r = 1.

(** The relabelling of the outcome classes. *)
Definition outcome_names : list (cell * cell) :=
  [(Int 0, Str "Failure"); (Int 1, Str "Success")].

(** The point a record is drawn as. *)
Definition point_of (r : LaunchRecord) : ScatterPoint :=
  {| pt_x := Int (payload_mass r);
     pt_y := Int (class r);
     pt_color := Str (booster_category r);
     pt_hover := [Str (launch_site r)] |}.

(** The records the scatter callback keeps for a selection. *)
Definition selected (site : string) (lo hi : Z) (r : LaunchRecord) : Prop :=
  (lo ≤ payload_mass r ∧ payload_mass r ≤ hi) ∧
  (site = "ALL" ∨ launch_site r = site).

#[global] Instance selected_dec site lo hi r : Decision (selected site lo hi r).
Proof. unfold selected. apply _. Defined.

(** The records of the example in the specification, with payloads and
    booster categories added. *)
Definition example_records : Dataset :=
  [ {| launch_site := "SiteA"; payload_mass := 500; class := 1;
       booster_category := "FT" |};
    {| launch_site := "SiteA"; payload_mass := 2500; class := 0;
       booster_category := "v1.1" |};
    {| launch_site := "SiteB"; payload_mass := 9600; class := 1;
       booster_category := "FT" |} ].

(** A folder without the input file, and one that holds the example
    records under the expected name. *)
Definition empty_folder : World := λ _, None.

Definition example_folder : World :=
  λ path, if decide (path = CSV_PATH) then Some example_records else None.

(** A selection with reversed bounds, and two selections of one site with
    different ranges. *)
Definition reversed_all : FilterState :=
  {| fs_site := "ALL"; fs_lo := 9600; fs_hi := 500 |}.

Definition siteA_full : FilterState :=
  {| fs_site := "SiteA"; fs_lo := 0; fs_hi := 10000 |}.

Definition siteA_reversed : FilterState :=
  {| fs_site := "SiteA"; fs_lo := 9000; fs_hi := 100 |}.

(** The points the scatter callback draws for a selection (none when it
    raises). *)
Definition drawn (df : Dataset) (site : string) (lo hi : Z)
    : list ScatterPoint :=
  match update_scatter df site [lo; hi] with
  | Ok fig => points fig
  | Raise _ => []
  end.

(** The sites the dropdown offers: the values of its options after the
    first. *)
Definition site_choices (df : Dataset) : list string :=
  opt_value <$> drop 1 (dd_options (site_dropdown df)).

(** The class column of a site, and its value counts in the order
    [value_counts] gives them. *)
Definition site_classes (df : Dataset) (site : string) : list cell :=
  (λ r, Int (class r)) <$> filter (λ r, launch_site r = site) df.

Definition site_counts (df : Dataset) (site : string) : list (cell * nat) :=
  sort_counts
    ((λ v, (v, count_occ_of v (site_classes df site)))
       <$> unique (site_classes df site)).

(** * Properties *)

(** ** Lists: first occurrences, grouping, sums *)

Section unique.
Context {A : Type} `{EqDecision A}.
Implicit Types l seen : list A.

Lemma elem_of_unique_from seen l x :
  x ∈ unique_from seen l ↔ x ∈ l ∧ x ∉ seen.
Proof.
  revert seen. induction l as [|y l IH]; intros seen; simpl.
  - split; [by intros ?%elem_of_nil | by intros [?%elem_of_nil _]].
  - case_decide as Hy.
    + rewrite IH, elem_of_cons. naive_solver.
    + rewrite !elem_of_cons, IH, not_elem_of_cons.
      destruct (decide (x = y)); naive_solver.
Qed.

Lemma NoDup_unique_from seen l : NoDup (unique_from seen l).
Proof.
  revert seen. induction l as [|y l IH]; intros seen; simpl.
  - constructor.
  - case_decide; [done|]. constructor; [|done].
    rewrite elem_of_unique_from, not_elem_of_cons. naive_solver.
Qed.

Lemma elem_of_unique l x : x ∈ unique l ↔ x ∈ l.
Proof.
  unfold unique. rewrite elem_of_unique_from.
  split; [naive_solver | intros ?; split; [done | apply not_elem_of_nil]].
Qed.

Lemma NoDup_unique l : NoDup (unique l).
Proof. apply NoDup_unique_from. Qed.
End unique.

Lemma filter_none {A} (P : A → Prop) `{∀ x, Decision (P x)} (l : list A) :
  (∀ x, x ∈ l → ¬ P x) → filter P l = [].
Proof.
  induction l as [|x l IH]; intros Hl; [done|].
  rewrite filter_cons, decide_False by (apply Hl; left).
  apply IH. intros y Hy. apply Hl. by right.
Qed.

Section grouping.
Context {A K : Type} `{EqDecision K}.
Variable key : A → K.

(** Splitting a list into its groups, one per key, loses and adds
    nothing. *)
Lemma groups_Permutation (ks : list K) (l : list A) :
  NoDup ks → (∀ x, x ∈ l → key x ∈ ks) →
  ks ≫= (λ k, filter (λ x, key x = k) l) ≡ₚ l.
Proof.
  revert l. induction ks as [|k ks IH]; intros l Hnd Hin.
  - destruct l as [|x l]; [done|].
    assert (key x ∈ []) as Hx by (apply Hin; left). by apply elem_of_nil in Hx.
  - apply NoDup_cons in Hnd as [Hk Hnd]. rewrite bind_cons.
    etrans; [|apply (filter_app_complement (λ x, key x = k) l)].
    apply Permutation_app_head.
    etrans; [|apply (IH (filter (λ x, ¬ key x = k) l)); [done|]].
    + cut (ks ≫= (λ k0, filter (λ x, key x = k0) l)
           = ks ≫= (λ k0, filter (λ x, key x = k0)
                             (filter (λ x, ¬ key x = k) l)));
        [by intros ->|].
      clear IH Hnd Hin.
      induction ks as [|k' ks IH']; [done|].
      apply not_elem_of_cons in Hk as [Hne Hk].
      rewrite !bind_cons, IH' by done. f_equal.
      rewrite list_filter_filter. apply list_filter_iff. naive_solver.
    + intros x [Hx Hl]%list_elem_of_filter.
      apply Hin, elem_of_cons in Hl. naive_solver.
Qed.

Lemma unique_groups_Permutation (l : list A) :
  unique (key <$> l) ≫= (λ k, filter (λ x, key x = k) l) ≡ₚ l.
Proof.
  apply groups_Permutation; [apply NoDup_unique|].
  intros x Hx. by apply elem_of_unique, list_elem_of_fmap_2.
Qed.

(** With distinct keys every group is a single entry. *)
Lemma filter_key_NoDup (l : list A) (x : A) :
  NoDup (key <$> l) → x ∈ l → filter (λ y, key y = key x) l = [x].
Proof.
  induction l as [|y l IH]; intros Hnd Hx; [by apply elem_of_nil in Hx|].
  rewrite fmap_cons in Hnd. apply NoDup_cons in Hnd as [Hy Hnd].
  rewrite filter_cons. apply elem_of_cons in Hx as [->|Hx].
  - rewrite decide_True by done. f_equal.
    apply filter_none. intros z Hz Heq. apply Hy. rewrite <- Heq. by apply list_elem_of_fmap_2.
  - rewrite decide_False; [by apply IH|].
    intros Heq. apply Hy. rewrite Heq. by apply list_elem_of_fmap_2.
Qed.
End grouping.

Lemma sumZ_app (l k : list Z) : sumZ (l ++ k) = sumZ l + sumZ k.
Proof. induction l as [|x l IH]; simpl; lia. Qed.

#[global] Instance sumZ_Permutation : Proper ((≡ₚ) ==> (=)) sumZ.
Proof. induction 1; simpl; lia. Qed.

Lemma sumZ_bind {A B} (h : B → Z) (F : A → list B) (ks : list A) :
  sumZ ((λ k, sumZ (h <$> F k)) <$> ks) = sumZ (h <$> (ks ≫= F)).
Proof.
  induction ks as [|k ks IH]; [done|].
  rewrite fmap_cons, bind_cons, fmap_app, sumZ_app. simpl. lia.
Qed.

(** A sum of zeros and ones counts the ones. *)
Lemma sumZ_indicator {A} (f : A → Z) (l : list A) :
  (∀ x, x ∈ l → f x = 0 ∨ f x = 1) →
  sumZ (f <$> l) = Z.of_nat (length (filter (λ x, f x = 1) l)).
Proof.
  induction l as [|x l IH]; intros Hb; [done|].
  rewrite fmap_cons, filter_cons. simpl.
  rewrite IH by (intros y Hy; apply Hb; by right).
  destruct (Hb x) as [H0|H1]; [by left| |].
  - rewrite decide_False by lia. lia.
  - rewrite decide_True by done. simpl length. lia.
Qed.

Lemma zip_fmap_same {A B C} (f : A → B) (g : A → C) (l : list A) :
  zip (f <$> l) (g <$> l) = (λ x, (f x, g x)) <$> l.
Proof. induction l; simpl; by f_equal. Qed.

Lemma filter_fmap_key {A B} (f : A → B) (P : B → Prop)
    `{∀ y, Decision (P y)} (l : list A) :
  filter P (f <$> l) = f <$> filter (λ x, P (f x)) l.
Proof.
  induction l as [|x l IH]; [done|].
  rewrite fmap_cons, !filter_cons. case_decide; simpl; by f_equal.
Qed.

(** ** Sorting the counts *)

#[global] Instance count_ge_trans : Transitive count_ge.
Proof. unfold count_ge. intros a b c ? ?. lia. Qed.

#[global] Instance count_ge_total : Total count_ge.
Proof. unfold count_ge. intros a b. lia. Qed.

Lemma insert_count_Permutation (x : cell * nat) (l : list (cell * nat)) :
  insert_count x l ≡ₚ x :: l.
Proof.
  induction l as [|y l IH]; [done|]. simpl. case_decide; [done|].
  rewrite IH. apply Permutation_swap.
Qed.

Lemma sort_counts_Permutation (l : list (cell * nat)) : sort_counts l ≡ₚ l.
Proof.
  induction l as [|x l IH]; [done|]. simpl.
  by rewrite insert_count_Permutation, IH.
Qed.

Lemma StronglySorted_insert_count (x : cell * nat) (l : list (cell * nat)) :
  StronglySorted count_ge l → StronglySorted count_ge (insert_count x l).
Proof.
  induction l as [|y l IH]; intros Hl; simpl.
  - repeat constructor.
  - apply StronglySorted_inv in Hl as [Hl Hy]. case_decide as Hxy.
    + constructor; [by constructor|]. constructor; [done|].
      eapply Forall_impl; [exact Hy|]. intros z Hz. by trans y.
    + constructor; [by apply IH|].
      rewrite insert_count_Permutation. constructor; [|done].
      by destruct (total count_ge x y).
Qed.

Lemma StronglySorted_sort_counts (l : list (cell * nat)) :
  StronglySorted count_ge (sort_counts l).
Proof.
  induction l as [|x l IH]; [constructor|].
  by apply StronglySorted_insert_count.
Qed.

(** Values of equal count keep their order of first appearance. *)
Example value_counts_ties :
  (s_items (value_counts Pandas1 "class" [Int 7; Int 8; Int 9; Int 8; Int 7; Int 9])).*1
  = [Int 7; Int 8; Int 9] ∧
  (s_items (value_counts Pandas1 "class" [Int 0; Int 1; Int 1])).*1
  = [Int 1; Int 0].
Proof. split; reflexivity. Qed.

(** ** Pie slices *)

Lemma slices_labels (fig : PieFigure) :
  (slices fig).*1 = unique (pie_labels fig).
Proof.
  unfold slices. rewrite <- list_fmap_compose.
  rewrite <- (list_fmap_id (unique _)) at 2. by apply list_fmap_ext.
Qed.

Lemma NoDup_slices (fig : PieFigure) : NoDup (slices fig).*1.
Proof. rewrite slices_labels. apply NoDup_unique. Qed.

Lemma elem_of_slices (fig : PieFigure) (k : cell) (v : Z) :
  (k, v) ∈ slices fig ↔
  k ∈ pie_labels fig ∧
  v = sumZ ((numeric ∘ snd)
              <$> filter (λ e, e.1 = k) (zip (pie_labels fig) (pie_values fig))).
Proof.
  unfold slices. rewrite list_elem_of_fmap. split.
  - intros (k' & Heq & Hk). simplify_eq.
    rewrite elem_of_unique in Hk. by split.
  - intros [Hk ->]. exists k. by rewrite elem_of_unique.
Qed.

(** The slices share out the whole value column. *)
Lemma slices_total (fig : PieFigure) :
  length (pie_labels fig) = length (pie_values fig) →
  sumZ (slices fig).*2 = sumZ (numeric <$> pie_values fig).
Proof.
  intros Hlen. unfold slices. rewrite <- list_fmap_compose.
  set (entries := zip (pie_labels fig) (pie_values fig)).
  assert (pie_labels fig = entries.*1) as Hl
    by (symmetry; apply fst_zip; lia).
  assert (pie_values fig = entries.*2) as Hv
    by (symmetry; apply snd_zip; lia).
  etrans; [apply (sumZ_bind (numeric ∘ snd)
                    (λ k, filter (λ e : cell * cell, e.1 = k) entries))|].
  rewrite Hl, unique_groups_Permutation, Hv.
  by rewrite <- list_fmap_compose.
Qed.

Lemma px_pie_all_sites (d : Dataset) (title : string) :
  px_pie (frame_of d) "class" "Launch Site" title
  = Ok {| pie_labels := (λ r, Str (launch_site r)) <$> d;
          pie_values := (λ r, Int (class r)) <$> d;
          pie_title := title |}.
Proof.
  unfold px_pie, px_column.
  change (get_loc "class" (columns (frame_of d))) with (Some 2%nat).
  change (get_loc "Launch Site" (columns (frame_of d))) with (Some 0%nat).
  simpl. unfold mret, result_ret. f_equal.
  by rewrite <- !list_fmap_compose.
Qed.

(** The group of a site in the all-sites pie sums the classes of that
    site's records. *)
Lemma site_group_sum (d : Dataset) (s : string) :
  sumZ ((numeric ∘ snd)
          <$> filter (λ e, e.1 = Str s)
                (zip ((λ r, Str (launch_site r)) <$> d)
                     ((λ r, Int (class r)) <$> d)))
  = sumZ (class <$> filter (λ r, launch_site r = s) d).
Proof.
  rewrite zip_fmap_same.
  rewrite (filter_fmap_key _ (λ e : cell * cell, e.1 = Str s)).
  rewrite <- list_fmap_compose. f_equal.
  apply (f_equal (fmap class)), list_filter_iff.
  intros r; simpl. split; [by intros [= ->] | by intros ->].
Qed.

(** C1: for the "ALL" selection the callback returns a pie whose slices are
    the launch sites of the dataset, each once; when every outcome class is
    0 or 1, the slice of a site is the number of its records of class 1,
    and the slice values add up to the number of records of class 1 in the
    whole dataset. *)
Theorem all_sites_pie_counts_successes (api : pandas_api) (df : Dataset) :
  binary df →
  ∃ fig, update_pie api df "ALL" = Ok fig ∧
    NoDup (slices fig).*1 ∧
    (∀ k, k ∈ (slices fig).*1 ↔ ∃ r, r ∈ df ∧ k = Str (launch_site r)) ∧
    (∀ s v, (Str s, v) ∈ slices fig →
       v = Z.of_nat (length (filter (λ r, launch_site r = s ∧ class r = 1) df))) ∧
    sumZ (slices fig).*2
    = Z.of_nat (length (filter (λ r, class r = 1) df)).
Proof.
  intros Hbin. unfold update_pie. rewrite decide_True by done.
  rewrite px_pie_all_sites. eexists; split; [done|].
  split; [apply NoDup_slices|]. split; [|split].
  - intros k. rewrite slices_labels, elem_of_unique. simpl.
    rewrite list_elem_of_fmap. naive_solver.
  - intros s v [_ ->]%elem_of_slices. simpl. rewrite site_group_sum.
    rewrite sumZ_indicator.
    + do 2 f_equal. rewrite list_filter_filter.
      apply list_filter_iff. naive_solver.
    + intros r [_ Hr]%list_elem_of_filter. by apply Hbin.
  - rewrite slices_total by (simpl; by rewrite !length_fmap).
    simpl. rewrite <- list_fmap_compose. by apply sumZ_indicator.
Qed.

(** With distinct labels nothing is summed: each slice is one entry. *)
Lemma slices_distinct_labels (fig : PieFigure) (k : cell) (v : Z) :
  NoDup (pie_labels fig) →
  length (pie_labels fig) = length (pie_values fig) →
  (k, v) ∈ slices fig ↔
  ∃ c, (k, c) ∈ zip (pie_labels fig) (pie_values fig) ∧ v = numeric c.
Proof.
  intros Hnd Hlen. rewrite elem_of_slices.
  set (entries := zip (pie_labels fig) (pie_values fig)).
  assert (entries.*1 = pie_labels fig) as Hl by (apply fst_zip; lia).
  rewrite <- Hl in Hnd |- *.
  assert (∀ c, (k, c) ∈ entries →
            sumZ ((numeric ∘ snd) <$> filter (λ e, e.1 = k) entries)
            = numeric c) as Hone.
  { intros c Hc. rewrite (filter_key_NoDup fst entries (k, c)) by done.
    simpl. lia. }
  split.
  - intros [([k' c] & -> & Hc)%list_elem_of_fmap ->].
    exists c. by rewrite (Hone c).
  - intros (c & Hc & ->). split; [|by rewrite (Hone c)].
    by apply (list_elem_of_fmap_2 fst) in Hc.
Qed.

Lemma getitem_class (d : Dataset) :
  getitem (frame_of d) "class" = Ok ((λ r, Int (class r)) <$> d).
Proof.
  unfold getitem.
  change (get_loc "class" (columns (frame_of d))) with (Some 2%nat).
  simpl. by rewrite <- list_fmap_compose.
Qed.

Lemma filter_all {A} (P : A → Prop) `{∀ x, Decision (P x)} (l : list A) :
  (∀ x, x ∈ l → P x) → filter P l = l.
Proof.
  induction l as [|x l IH]; intros Hl; [done|].
  rewrite filter_cons, decide_True by (apply Hl; left).
  f_equal. apply IH. intros y Hy. apply Hl. by right.
Qed.

Lemma count_occ_of_pos {A} `{EqDecision A} (x : A) (l : list A) :
  x ∈ l ↔ (0 < count_occ_of x l)%nat.
Proof.
  unfold count_occ_of. split.
  - intros Hx. assert (x ∈ filter (λ y, y = x) l) as Hf
      by by apply list_elem_of_filter.
    destruct (filter _ l); [by apply elem_of_nil in Hf | simpl; lia].
  - intros Hpos. destruct (filter (λ y, y = x) l) as [|y k] eqn:Hf;
      [simpl in Hpos; lia|].
    assert (y ∈ filter (λ y, y = x) l) as Hy by (rewrite Hf; left).
    apply list_elem_of_filter in Hy as [-> Hy]. done.
Qed.

Lemma relabel_outcome_inj (y z : Z) :
  relabel outcome_names (Int y) = relabel outcome_names (Int z) → y = z.
Proof.
  unfold relabel, outcome_names. simpl.
  repeat case_decide; simpl; congruence.
Qed.

Section single_site.
Variable df : Dataset.
Variable selected_site : string.
Hypothesis concrete : selected_site ≠ "ALL".

Let col : list cell :=
  (λ r, Int (class r)) <$> filter (λ r, launch_site r = selected_site) df.
Let counts : list (cell * nat) :=
  sort_counts ((λ v, (v, count_occ_of v col)) <$> unique col).

(** Under the pandas 1.x names the counts frame has the columns
    "Outcome" and "Count" the pie asks for. *)
Lemma update_pie_site :
  update_pie Pandas1 df selected_site
  = Ok {| pie_labels := (λ p, relabel outcome_names p.1) <$> counts;
          pie_values := (λ p, Int (Z.of_nat p.2)) <$> counts;
          pie_title := "Launch Outcomes for " +:+ selected_site |}.
Proof.
  unfold update_pie. rewrite decide_False by done.
  rewrite getitem_class. fold col. simpl.
  unfold px_pie, px_column, rename_columns, reset_index. simpl.
  unfold mret, result_ret. f_equal.
  rewrite filter_all.
  2:{ intros c (r & -> & _)%list_elem_of_fmap. done. }
  fold counts. f_equal; rewrite <- !list_fmap_compose; by apply list_fmap_ext.
Qed.

Lemma elem_of_counts (p : cell * nat) :
  p ∈ counts ↔ p.1 ∈ col ∧ p.2 = count_occ_of p.1 col.
Proof.
  unfold counts. rewrite sort_counts_Permutation, list_elem_of_fmap.
  setoid_rewrite elem_of_unique. destruct p as [c n]; simpl. naive_solver.
Qed.

Lemma NoDup_site_labels :
  NoDup ((λ p : cell * nat, relabel outcome_names p.1) <$> counts).
Proof.
  unfold counts. rewrite sort_counts_Permutation, <- list_fmap_compose.
  apply NoDup_fmap_2_strong; [|apply NoDup_unique].
  intros x y Hx Hy. simpl. revert Hx Hy. rewrite !elem_of_unique. subst col.
  intros (r1 & -> & _)%list_elem_of_fmap (r2 & -> & _)%list_elem_of_fmap Heq.
  f_equal. by apply relabel_outcome_inj.
Qed.

Lemma count_class (c : Z) :
  count_occ_of (Int c) col
  = length (filter (λ r, launch_site r = selected_site ∧ class r = c) df).
Proof.
  unfold count_occ_of. subst col.
  rewrite (filter_fmap_key _ (λ y, y = Int c)), length_fmap.
  rewrite list_filter_filter. f_equal. apply list_filter_iff.
  intros r. split; [by intros [[= ->] ->] | by intros [-> ->]].
Qed.
End single_site.

(** X15: for a selection other than "ALL" (pandas 1.x names, classes 0 or 1)
    the callback returns a pie whose labels are distinct and are exactly
    those of "Success" and "Failure" that occur among the records of the
    site: "Success" with the number of its records of class 1 and
    "Failure" with the number of its records of class 0. *)
Theorem single_site_pie_outcomes (df : Dataset) (selected_site : string) :
  selected_site ≠ "ALL" →
  binary df →
  ∃ fig, update_pie Pandas1 df selected_site = Ok fig ∧
    NoDup (slices fig).*1 ∧
    ∀ k v, (k, v) ∈ slices fig ↔
      0 < v ∧
      ((k = Str "Success" ∧
        v = Z.of_nat (length (filter
              (λ r, launch_site r = selected_site ∧ class r = 1) df))) ∨
       (k = Str "Failure" ∧
        v = Z.of_nat (length (filter
              (λ r, launch_site r = selected_site ∧ class r = 0) df)))).
Proof.
  intros Hsite Hbin. rewrite update_pie_site by done.
  eexists; split; [done|]. split; [apply NoDup_slices|].
  intros k v.
  rewrite slices_distinct_labels; simpl;
    [|by apply NoDup_site_labels|by rewrite !length_fmap].
  rewrite zip_fmap_same. setoid_rewrite list_elem_of_fmap.
  setoid_rewrite elem_of_counts. split.
  - intros (c & ([x n] & Heq & Hx & Hn) & ->). simpl in *. simplify_eq.
    pose proof Hx as Hpos. apply count_occ_of_pos in Hpos.
    apply list_elem_of_fmap in Hx as (r & -> & [_ Hr]%list_elem_of_filter).
    rewrite count_class in Hpos |- *. simpl numeric.
    split; [lia|]. destruct (Hbin r Hr) as [Hc | Hc]; rewrite Hc;
      [by right | by left].
  - intros [Hpos [[-> ->] | [-> ->]]].
    + exists (Int (Z.of_nat (count_occ_of (Int 1)
        ((λ r, Int (class r))
           <$> filter (λ r, launch_site r = selected_site) df)))).
      rewrite count_class. split; [|done].
      eexists (Int 1, _). split; [done|]. simpl. split; [|by rewrite count_class].
      apply count_occ_of_pos. rewrite count_class. lia.
    + exists (Int (Z.of_nat (count_occ_of (Int 0)
        ((λ r, Int (class r))
           <$> filter (λ r, launch_site r = selected_site) df)))).
      rewrite count_class. split; [|done].
      eexists (Int 0, _). split; [done|]. simpl. split; [|by rewrite count_class].
      apply count_occ_of_pos. rewrite count_class. lia.
Qed.

(** ** Scatter points *)

#[global] Instance point_of_inj : Inj (=) (=) point_of.
Proof. intros [] [] [=]. by simplify_eq. Qed.

Lemma bind_fmap_list {A B C} (f : A → B) (g : B → list C) (l : list A) :
  (f <$> l) ≫= g = l ≫= (g ∘ f).
Proof. induction l as [|x l IH]; [done|]. by rewrite fmap_cons, !bind_cons, IH. Qed.

(** Splitting the rows into one trace per booster category keeps every
    point, once. *)
Lemma px_scatter_points (d : Dataset) (title : string) :
  ∃ fig,
    px_scatter (frame_of d) "Payload Mass (kg)" "class"
      "Booster Version Category" ["Launch Site"]
      [("class", "Launch Outcome (1=Success, 0=Failure)")] title = Ok fig ∧
    points fig ≡ₚ point_of <$> d.
Proof.
  unfold px_scatter, px_columns, px_column.
  change (get_loc "Payload Mass (kg)" (columns (frame_of d))) with (Some 1%nat).
  change (get_loc "class" (columns (frame_of d))) with (Some 2%nat).
  change (get_loc "Booster Version Category" (columns (frame_of d)))
    with (Some 3%nat).
  change (get_loc "Launch Site" (columns (frame_of d))) with (Some 0%nat).
  simpl. eexists; split; [done|]. unfold points; simpl.
  rewrite bind_fmap_list, <- list_fmap_compose.
  apply (unique_groups_Permutation pt_color (point_of <$> d)).
Qed.

Lemma update_scatter_points (df : Dataset) (site : string) (lo hi : Z) :
  ∃ fig, update_scatter df site [lo; hi] = Ok fig ∧
    points fig ≡ₚ point_of <$> filter (selected site lo hi) df.
Proof.
  unfold update_scatter.
  match goal with
  | |- ∃ fig, px_scatter (frame_of ?d) _ _ _ _ _ ?t = _ ∧ _ =>
      destruct (px_scatter_points d t) as (fig & Hfig & Hpts)
  end.
  exists fig. split; [done|]. rewrite Hpts.
  match goal with |- ?a ≡ₚ ?b => cut (a = b); [by intros ->|] end.
  f_equal. case_decide as Hs.
  - rewrite list_filter_filter. apply list_filter_iff.
    unfold selected. naive_solver.
  - apply list_filter_iff.
    unfold selected. naive_solver.
Qed.

Lemma elem_of_update_scatter (df : Dataset) (site : string) (lo hi : Z)
    (fig : ScatterFigure) (p : ScatterPoint) :
  update_scatter df site [lo; hi] = Ok fig →
  p ∈ points fig ↔ ∃ r, p = point_of r ∧ r ∈ df ∧ selected site lo hi r.
Proof.
  intros Hfig. destruct (update_scatter_points df site lo hi)
    as (fig' & Hfig' & Hpts).
  rewrite Hfig in Hfig'. injection Hfig' as <-.
  rewrite Hpts, list_elem_of_fmap. setoid_rewrite list_elem_of_filter.
  naive_solver.
Qed.

Lemma binary_example_records : binary example_records.
Proof.
  intros r Hr. unfold example_records in Hr.
  repeat (apply elem_of_cons in Hr as [-> | Hr]); simpl; auto.
  by apply elem_of_nil in Hr.
Qed.

Lemma all_sites_pie_counts_successes_witness :
  binary example_records ∧
  ∃ fig, update_pie Pandas1 example_records "ALL" = Ok fig ∧
    NoDup (slices fig).*1 ∧
    (∀ k, k ∈ (slices fig).*1 ↔
       ∃ r, r ∈ example_records ∧ k = Str (launch_site r)) ∧
    (∀ s v, (Str s, v) ∈ slices fig →
       v = Z.of_nat (length (filter (λ r, launch_site r = s ∧ class r = 1)
                               example_records))) ∧
    sumZ (slices fig).*2
    = Z.of_nat (length (filter (λ r, class r = 1) example_records)).
Proof.
  split; [apply binary_example_records|].
  apply (all_sites_pie_counts_successes Pandas1 example_records).
  apply binary_example_records.
Defined.

(** The example of the specification: [{(SiteA,1),(SiteA,0),(SiteB,1)}]
    gives [{SiteA: 1, SiteB: 1}]. *)
Example all_sites_pie_example :
  slices <$> update_pie Pandas1 example_records "ALL"
  = Ok [(Str "SiteA", 1); (Str "SiteB", 1)].
Proof. reflexivity. Qed.

Lemma single_site_pie_outcomes_witness :
  "SiteA" ≠ "ALL" ∧ binary example_records ∧
  ∃ fig, update_pie Pandas1 example_records "SiteA" = Ok fig ∧
    NoDup (slices fig).*1 ∧
    ∀ k v, (k, v) ∈ slices fig ↔
      0 < v ∧
      ((k = Str "Success" ∧
        v = Z.of_nat (length (filter
              (λ r, launch_site r = "SiteA" ∧ class r = 1) example_records))) ∨
       (k = Str "Failure" ∧
        v = Z.of_nat (length (filter
              (λ r, launch_site r = "SiteA" ∧ class r = 0) example_records)))).
Proof.
  split; [done|]. split; [apply binary_example_records|].
  apply (single_site_pie_outcomes example_records "SiteA");
    [done | apply binary_example_records].
Defined.

Example single_site_pie_example :
  slices <$> update_pie Pandas1 example_records "SiteA"
  = Ok [(Str "Success", 1); (Str "Failure", 1)].
Proof. reflexivity. Qed.

(** With the names of pandas 2 the renamed counts frame has no "Outcome"
    column and plotly rejects it, whatever the site. *)
Remark update_pie_site_pandas2 (df : Dataset) (selected_site : string) :
  selected_site ≠ "ALL" →
  update_pie Pandas2 df selected_site
  = Raise (ValueError
      "Value of 'names' is not the name of a column in 'data_frame'").
Proof.
  intros Hsite. unfold update_pie. rewrite decide_False by done.
  by rewrite getitem_class.
Qed.

(** C3: every point of the scatter for the range [[lo, hi]] has its payload
    within the bounds; a record of the selected site (any record under
    "ALL") with payload within the bounds is drawn, in particular, when
    [lo ≤ hi], one whose payload is exactly [lo] or exactly [hi]; a record
    with payload below [lo] or above [hi] is not drawn. *)
Theorem scatter_range_inclusive (df : Dataset) (site : string) (lo hi : Z) :
  ∃ fig, update_scatter df site [lo; hi] = Ok fig ∧
    (∀ p, p ∈ points fig → ∃ m, pt_x p = Int m ∧ lo ≤ m ∧ m ≤ hi) ∧
    (∀ r, r ∈ df → site = "ALL" ∨ launch_site r = site →
       lo ≤ payload_mass r ∧ payload_mass r ≤ hi → point_of r ∈ points fig) ∧
    (∀ r, r ∈ df → site = "ALL" ∨ launch_site r = site → lo ≤ hi →
       payload_mass r = lo ∨ payload_mass r = hi → point_of r ∈ points fig) ∧
    (∀ r, payload_mass r < lo ∨ hi < payload_mass r →
       point_of r ∉ points fig).
Proof.
  destruct (update_scatter_points df site lo hi) as (fig & Hfig & _).
  exists fig. split; [done|].
  pose proof (elem_of_update_scatter df site lo hi fig) as Hin.
  repeat split.
  - intros p (r & -> & _ & [Hr _])%Hin; [|done].
    exists (payload_mass r). by split.
  - intros r Hr Hs Hp. apply Hin; [done|]. by exists r.
  - intros r Hr Hs Hle Hp. apply Hin; [done|]. exists r.
    split; [done|]. split; [done|]. split; [lia|done].
  - intros r Hout (r' & ->%(inj point_of) & _ & [Hr _])%Hin; [|done]. lia.
Qed.

(** C4: for a selection other than "ALL" and a range [[lo, hi]] the points
    of the scatter are, with their multiplicity, the records that have both
    their payload within the bounds and the selected site: every such
    record is drawn and no other. *)
Theorem scatter_site_and_range (df : Dataset) (site : string) (lo hi : Z) :
  site ≠ "ALL" →
  ∃ fig, update_scatter df site [lo; hi] = Ok fig ∧
    points fig
    ≡ₚ point_of <$> filter (λ r, (lo ≤ payload_mass r ∧ payload_mass r ≤ hi)
                                ∧ launch_site r = site) df ∧
    (∀ p, p ∈ points fig → ∃ r, p = point_of r ∧ r ∈ df) ∧
    (∀ r, point_of r ∈ points fig ↔
       r ∈ df ∧ (lo ≤ payload_mass r ∧ payload_mass r ≤ hi)
       ∧ launch_site r = site).
Proof.
  intros Hsite.
  destruct (update_scatter_points df site lo hi) as (fig & Hfig & Hpts).
  exists fig. split; [done|].
  pose proof (elem_of_update_scatter df site lo hi fig) as Hin.
  split; [|split; [|intros r; split]].
  - rewrite Hpts.
    match goal with |- ?a ≡ₚ ?b => cut (a = b); [by intros ->|] end.
    f_equal. apply list_filter_iff. unfold selected. naive_solver.
  - intros p (r & -> & Hr & _)%Hin; [|done]. by exists r.
  - intros (r' & ->%(inj point_of) & Hr & [Hp [?|?]])%Hin; done.
  - intros (Hr & Hp & Hs). apply Hin; [done|]. exists r.
    unfold selected. auto.
Qed.

Lemma scatter_range_inclusive_witness :
  ∃ fig, update_scatter example_records "SiteA" [500; 2500] = Ok fig ∧
    (∀ p, p ∈ points fig → ∃ m, pt_x p = Int m ∧ 500 ≤ m ∧ m ≤ 2500) ∧
    (∀ r, r ∈ example_records → "SiteA" = "ALL" ∨ launch_site r = "SiteA" →
       500 ≤ payload_mass r ∧ payload_mass r ≤ 2500 →
       point_of r ∈ points fig) ∧
    (∀ r, r ∈ example_records → "SiteA" = "ALL" ∨ launch_site r = "SiteA" →
       500 ≤ 2500 →
       payload_mass r = 500 ∨ payload_mass r = 2500 →
       point_of r ∈ points fig) ∧
    (∀ r, payload_mass r < 500 ∨ 2500 < payload_mass r →
       point_of r ∉ points fig).
Proof. apply (scatter_range_inclusive example_records "SiteA" 500 2500). Defined.

(** The bounds are kept, their neighbours are dropped. *)
Example scatter_bounds_example :
  points <$> update_scatter example_records "ALL" [500; 2500]
  = Ok [ {| pt_x := Int 500; pt_y := Int 1; pt_color := Str "FT";
            pt_hover := [Str "SiteA"] |};
         {| pt_x := Int 2500; pt_y := Int 0; pt_color := Str "v1.1";
            pt_hover := [Str "SiteA"] |} ] ∧
  points <$> update_scatter example_records "ALL" [501; 2499] = Ok [].
Proof. split; reflexivity. Qed.

Lemma scatter_site_and_range_witness :
  "SiteA" ≠ "ALL" ∧
  ∃ fig, update_scatter example_records "SiteA" [0; 1000] = Ok fig ∧
    points fig
    ≡ₚ point_of <$> filter (λ r, (0 ≤ payload_mass r ∧ payload_mass r ≤ 1000)
                                ∧ launch_site r = "SiteA") example_records ∧
    (∀ p, p ∈ points fig → ∃ r, p = point_of r ∧ r ∈ example_records) ∧
    (∀ r, point_of r ∈ points fig ↔
       r ∈ example_records ∧ (0 ≤ payload_mass r ∧ payload_mass r ≤ 1000)
       ∧ launch_site r = "SiteA").
Proof.
  split; [done|].
  apply (scatter_site_and_range example_records "SiteA" 0 1000). done.
Defined.

(** ** Requests *)

Lemma fire_pie (api : pandas_api) (app : App) (fs : FilterState) :
  fire api app fs pie_callback
  = Pie <$> update_pie api (app_df app) (fs_site fs).
Proof. reflexivity. Qed.

Lemma fire_scatter (api : pandas_api) (app : App) (fs : FilterState) :
  fire api app fs scatter_callback
  = Scatter <$> update_scatter (app_df app) (fs_site fs) [fs_lo fs; fs_hi fs].
Proof. reflexivity. Qed.

(** Under the pandas 1.x names the pie callback never raises. *)
Lemma update_pie_total (df : Dataset) (site : string) :
  ∃ fig, update_pie Pandas1 df site = Ok fig.
Proof.
  destruct (decide (site = "ALL")) as [-> | Hsite].
  - unfold update_pie. rewrite decide_True by done.
    rewrite px_pie_all_sites. by eexists.
  - rewrite update_pie_site by done. by eexists.
Qed.

(** C5, as stated, fails: with the bounds reversed the pie of "ALL" over
    the example records still has its two slices. *)
Lemma degenerate_range_pie_not_empty :
  fs_hi reversed_all < fs_lo reversed_all ∧
  ∃ fig, fire Pandas1 (build_app example_records) reversed_all pie_callback
         = Ok (Pie fig) ∧
    slices fig = [(Str "SiteA", 1); (Str "SiteB", 1)] ∧
    slices fig ≠ [].
Proof.
  split; [done|]. eexists. split; [reflexivity|].
  split; [reflexivity | done].
Qed.

(** ** Start-up *)

(** C6: when the input file is missing the process ends at once through
    [sys.exit]: exit status 1, the message naming the path on standard
    error, no application built, and the existence check as its only
    effect (no read, no server).  Whatever the files, the existence check
    is the first effect of the module body. *)
Theorem missing_file_exits (w : World) (is_main : bool) :
  w CSV_PATH = None →
  start w is_main
  = (SystemExit 1
       "ERROR: 'spacex_launch_dash.csv' not found in the current folder.",
     [PathExists CSV_PATH]) ∧
  (∃ pre post,
     "ERROR: 'spacex_launch_dash.csv' not found in the current folder."
     = pre +:+ CSV_PATH +:+ post) ∧
  (∀ host port, Run host port ∉ (start w is_main).2) ∧
  (ReadCsv CSV_PATH ∉ (start w is_main).2) ∧
  (∀ w' main', ∃ t, (start w' main').2 = PathExists CSV_PATH :: t).
Proof.
  intros Hmissing.
  assert (start w is_main
          = (SystemExit 1
               "ERROR: 'spacex_launch_dash.csv' not found in the current folder.",
             [PathExists CSV_PATH])) as Hstart.
  { unfold start, module_body, mbind, Script_bind, os_path_exists.
    rewrite Hmissing. reflexivity. }
  rewrite Hstart. split; [done|]. split; [|split; [|split]].
  - by exists "ERROR: '", "' not found in the current folder.".
  - intros host port [[=]|[]%elem_of_nil]%elem_of_cons.
  - intros [[=]|[]%elem_of_nil]%elem_of_cons.
  - intros w' main'.
    unfold start, module_body, mbind, Script_bind, os_path_exists, pd_read_csv.
    destruct (w' CSV_PATH) as [d|]; simpl; [|by eexists].
    destruct main'; simpl; by eexists.
Qed.

Lemma missing_file_exits_witness :
  empty_folder CSV_PATH = None ∧
  start empty_folder true
  = (SystemExit 1
       "ERROR: 'spacex_launch_dash.csv' not found in the current folder.",
     [PathExists CSV_PATH]).
Proof.
  split; [done|].
  apply (missing_file_exits empty_folder true). done.
Defined.

Lemma foldr_min_spec (x : Z) (l : list Z) :
  foldr Z.min x l ∈ x :: l ∧ ∀ y, y ∈ x :: l → foldr Z.min x l ≤ y.
Proof.
  induction l as [|z l [IHin IHle]]; simpl.
  - split; [left|]. by intros y ->%list_elem_of_singleton.
  - split.
    + destruct (Z.min_spec z (foldr Z.min x l)) as [[_ ->] | [_ ->]].
      * right; left.
      * apply elem_of_cons in IHin as [-> | ?]; [left | right; by right].
    + intros y Hy.
      assert (y = z ∨ y ∈ x :: l) as [-> | Hy'].
      { apply elem_of_cons in Hy as [-> | [-> | Hy]%elem_of_cons].
        - right; left.
        - by left.
        - right; by right. }
      * lia.
      * specialize (IHle y Hy'). lia.
Qed.

Lemma foldr_max_spec (x : Z) (l : list Z) :
  foldr Z.max x l ∈ x :: l ∧ ∀ y, y ∈ x :: l → y ≤ foldr Z.max x l.
Proof.
  induction l as [|z l [IHin IHle]]; simpl.
  - split; [left|]. by intros y ->%list_elem_of_singleton.
  - split.
    + destruct (Z.max_spec z (foldr Z.max x l)) as [[_ ->] | [_ ->]].
      * apply elem_of_cons in IHin as [-> | ?]; [left | right; by right].
      * right; left.
    + intros y Hy.
      assert (y = z ∨ y ∈ x :: l) as [-> | Hy'].
      { apply elem_of_cons in Hy as [-> | [-> | Hy]%elem_of_cons].
        - right; left.
        - by left.
        - right; by right. }
      * lia.
      * specialize (IHle y Hy'). lia.
Qed.

(** C8: when the file is there the module body runs to its end with the
    application built from the frame read; [pmin] and [pmax] are the
    minimum and maximum of the payload column (for a frame with at least
    one record: bounds of every payload, each attained by a record), and
    the initial value of the payload slider is [[pmin, pmax]]. *)
Theorem default_payload_range (w : World) (is_main : bool) (df : Dataset) :
  w CSV_PATH = Some df →
  ∃ app t slider,
    start w is_main = (Done app, t) ∧ app_df app = df ∧
    app_pmin app = series_min (payload_mass <$> df) ∧
    app_pmax app = series_max (payload_mass <$> df) ∧
    find_slider (app_layout app) = Some slider ∧
    rs_value slider = [app_pmin app; app_pmax app] ∧
    (df ≠ [] →
     ∃ lo hi, app_pmin app = Int lo ∧ app_pmax app = Int hi ∧
       (∀ r, r ∈ df → lo ≤ payload_mass r ∧ payload_mass r ≤ hi) ∧
       (∃ r, r ∈ df ∧ payload_mass r = lo) ∧
       (∃ r, r ∈ df ∧ payload_mass r = hi)).
Proof.
  intros Hfile.
  assert (∃ t, start w is_main = (Done (build_app df), t)) as [t Hstart].
  { unfold start, module_body, mbind, Script_bind, os_path_exists, pd_read_csv.
    rewrite Hfile. simpl. destruct is_main; by eexists. }
  exists (build_app df), t, (payload_slider (app_pmin (build_app df))
                                            (app_pmax (build_app df))).
  do 6 (split; [done|]). intros Hne. simpl.
  destruct df as [|r0 rs]; [done|]. rewrite fmap_cons. simpl.
  destruct (foldr_min_spec (payload_mass r0) (payload_mass <$> rs))
    as [Hmin_in Hmin].
  destruct (foldr_max_spec (payload_mass r0) (payload_mass <$> rs))
    as [Hmax_in Hmax].
  rewrite <- fmap_cons in Hmin_in, Hmax_in, Hmin, Hmax.
  eexists _, _. split; [done|]. split; [done|]. split; [|split].
  - intros r Hr. split; [apply Hmin | apply Hmax];
      by apply list_elem_of_fmap_2.
  - apply list_elem_of_fmap in Hmin_in as (r & Hr & Hin). by exists r.
  - apply list_elem_of_fmap in Hmax_in as (r & Hr & Hin). by exists r.
Qed.

Lemma default_payload_range_witness :
  example_folder CSV_PATH = Some example_records ∧
  ∃ app t slider,
    start example_folder true = (Done app, t) ∧ app_df app = example_records ∧
    app_pmin app = series_min (payload_mass <$> example_records) ∧
    app_pmax app = series_max (payload_mass <$> example_records) ∧
    find_slider (app_layout app) = Some slider ∧
    rs_value slider = [app_pmin app; app_pmax app] ∧
    (example_records ≠ [] →
     ∃ lo hi, app_pmin app = Int lo ∧ app_pmax app = Int hi ∧
       (∀ r, r ∈ example_records → lo ≤ payload_mass r ∧ payload_mass r ≤ hi) ∧
       (∃ r, r ∈ example_records ∧ payload_mass r = lo) ∧
       (∃ r, r ∈ example_records ∧ payload_mass r = hi)).
Proof.
  split; [done|].
  apply (default_payload_range example_folder true example_records). done.
Defined.

Example default_payload_range_example :
  rs_value <$> find_slider (app_layout (build_app example_records))
  = Some [Int 500; Int 9600].
Proof. reflexivity. Qed.

(** ** Wiring of the panels *)

(** C9: the pie callback is registered on the site dropdown alone, so its
    figure is the same for two selections with the same site, whatever
    their payload ranges; a change of the payload slider recomputes the
    scatter only, a change of the site dropdown recomputes both; and the
    scatter does depend on each of the two inputs. *)
Theorem pie_reacts_to_site_only (api : pandas_api) :
  (∀ app fs1 fs2,
     fs_site fs1 = fs_site fs2 →
     fire api app fs1 pie_callback = fire api app fs2 pie_callback) ∧
  (∀ df,
     triggered (build_app df) ("payload-slider", "value")
     = [("success-payload-scatter-chart", "figure")] ∧
     triggered (build_app df) ("site-dropdown", "value")
     = [("success-pie-chart", "figure");
        ("success-payload-scatter-chart", "figure")]) ∧
  (∃ app fs1 fs2,
     fs_site fs1 = fs_site fs2 ∧
     fire api app fs1 scatter_callback ≠ fire api app fs2 scatter_callback) ∧
  (∃ app fs1 fs2,
     fs_lo fs1 = fs_lo fs2 ∧ fs_hi fs1 = fs_hi fs2 ∧
     fire api app fs1 scatter_callback ≠ fire api app fs2 scatter_callback).
Proof.
  split; [|split; [|split]].
  - intros app fs1 fs2 Hs. by rewrite !fire_pie, Hs.
  - intros df. split; reflexivity.
  - exists (build_app example_records),
      {| fs_site := "ALL"; fs_lo := 0; fs_hi := 10000 |},
      {| fs_site := "ALL"; fs_lo := 0; fs_hi := 1000 |}.
    split; [done|]. intros Heq. vm_compute in Heq. discriminate Heq.
  - exists (build_app example_records),
      {| fs_site := "ALL"; fs_lo := 0; fs_hi := 10000 |},
      {| fs_site := "SiteB"; fs_lo := 0; fs_hi := 10000 |}.
    split; [done|]. split; [done|].
    intros Heq. vm_compute in Heq. discriminate Heq.
Qed.

Lemma pie_reacts_to_site_only_witness :
  fs_site siteA_full = fs_site siteA_reversed ∧
  fire Pandas1 (build_app example_records) siteA_full pie_callback
  = fire Pandas1 (build_app example_records) siteA_reversed pie_callback.
Proof.
  split; [done|].
  apply (proj1 (pie_reacts_to_site_only Pandas1)
           (build_app example_records) siteA_full siteA_reversed).
  done.
Defined.

(** ** The site selector *)

Lemma sorted_unique_sites (l : list string) :
  StronglySorted String.le (sorted (unique l)) ∧
  NoDup (sorted (unique l)) ∧
  ∀ s, s ∈ sorted (unique l) ↔ s ∈ l.
Proof.
  unfold sorted. split; [|split].
  - apply StronglySorted_merge_sort; apply _.
  - rewrite merge_sort_Permutation. apply NoDup_unique.
  - intros s. by rewrite merge_sort_Permutation, elem_of_unique.
Qed.

(** C10: the options of the site dropdown are "All Sites" with the value
    "ALL" first, then one option per launch site of the dataset, labelled
    and valued by the site, each site once, in ascending order; the initial
    value of the dropdown is "ALL". *)
Theorem site_dropdown_options (df : Dataset) :
  find_dropdown (app_layout (build_app df)) = Some (site_dropdown df) ∧
  dd_value (site_dropdown df) = "ALL" ∧
  ∃ sites,
    dd_options (site_dropdown df)
    = {| opt_label := "All Sites"; opt_value := "ALL" |}
      :: ((λ s, {| opt_label := s; opt_value := s |}) <$> sites) ∧
    StronglySorted String.le sites ∧
    NoDup sites ∧
    (∀ s, s ∈ sites ↔ ∃ r, r ∈ df ∧ launch_site r = s).
Proof.
  split; [done|]. split; [done|].
  exists (sorted (unique (launch_site <$> df))). split; [done|].
  destruct (sorted_unique_sites (launch_site <$> df)) as (Hs & Hnd & Hin).
  split; [done|]. split; [done|].
  intros s. rewrite Hin, list_elem_of_fmap. naive_solver.
Qed.

Example site_dropdown_options_example :
  dd_options (site_dropdown
    ({| launch_site := "VAFB SLC-4E"; payload_mass := 500; class := 0;
        booster_category := "v1.1" |} :: example_records))
  = [ {| opt_label := "All Sites"; opt_value := "ALL" |};
      {| opt_label := "SiteA"; opt_value := "SiteA" |};
      {| opt_label := "SiteB"; opt_value := "SiteB" |};
      {| opt_label := "VAFB SLC-4E"; opt_value := "VAFB SLC-4E" |} ].
Proof. reflexivity. Qed.

(** * Further properties of the callbacks and of the module body *)

(** ** The scatter callback *)

Lemma drawn_Permutation (df : Dataset) (site : string) (lo hi : Z) :
  drawn df site lo hi ≡ₚ point_of <$> filter (selected site lo hi) df.
Proof.
  unfold drawn.
  by destruct (update_scatter_points df site lo hi) as (fig & -> & Hpts).
Qed.

(** X2: under "ALL" the site plays no part: the points drawn are, with
    their multiplicity, the records with payload within the bounds, so
    there are as many points as such records. *)
Theorem scatter_all_sites (df : Dataset) (lo hi : Z) :
  ∃ fig, update_scatter df "ALL" [lo; hi] = Ok fig ∧
    points fig
    ≡ₚ point_of <$> filter (λ r, lo ≤ payload_mass r ∧ payload_mass r ≤ hi) df ∧
    length (points fig)
    = length (filter (λ r, lo ≤ payload_mass r ∧ payload_mass r ≤ hi) df).
Proof.
  destruct (update_scatter_points df "ALL" lo hi) as (fig & Hfig & Hpts).
  exists fig. split; [done|].
  assert (filter (selected "ALL" lo hi) df
          = filter (λ r, lo ≤ payload_mass r ∧ payload_mass r ≤ hi) df) as Heq.
  { apply list_filter_iff. unfold selected. naive_solver. }
  rewrite Heq in Hpts. split; [done|]. by rewrite Hpts, length_fmap.
Qed.

(** X3: widening the range never removes a point: for [lo' ≤ lo] and
    [hi ≤ hi'] the points drawn for [[lo, hi]] are among those drawn for
    [[lo', hi']], with their multiplicity. *)
Theorem scatter_monotone (df : Dataset) (site : string) (lo hi lo' hi' : Z) :
  lo' ≤ lo → hi ≤ hi' →
  drawn df site lo hi ⊆+ drawn df site lo' hi'.
Proof.
  intros Hlo Hhi. rewrite !drawn_Permutation.
  apply fmap_submseteq, sublist_submseteq.
  rewrite <- (list_filter_filter_l (selected site lo hi)
                (selected site lo' hi')).
  - apply sublist_filter.
  - unfold selected. intros r [[? ?] ?]. split; [lia | done].
Qed.

Lemma scatter_monotone_witness :
  0 ≤ 500 ∧ 2500 ≤ 10000 ∧
  drawn example_records "SiteA" 500 2500
  ⊆+ drawn example_records "SiteA" 0 10000.
Proof.
  split; [lia|]. split; [lia|].
  apply (scatter_monotone example_records "SiteA" 500 2500 0 10000); lia.
Defined.

Lemma bind_Permutation_ext {A B} (f g : A → list B) (l : list A) :
  (∀ x, x ∈ l → f x ≡ₚ g x) → l ≫= f ≡ₚ l ≫= g.
Proof.
  induction l as [|x l IH]; intros Hfg; [done|].
  rewrite !bind_cons. f_equiv.
  - apply Hfg. left.
  - apply IH. intros y Hy. apply Hfg. by right.
Qed.

Lemma fmap_bind_list {A B C} (f : B → C) (g : A → list B) (l : list A) :
  f <$> (l ≫= g) = l ≫= (λ x, f <$> g x).
Proof.
  induction l as [|x l IH]; [done|].
  by rewrite !bind_cons, fmap_app, IH.
Qed.

Lemma site_choices_sorted (df : Dataset) :
  site_choices df = sorted (unique (launch_site <$> df)).
Proof.
  unfold site_choices, site_dropdown. simpl. rewrite drop_0.
  rewrite <- list_fmap_compose.
  rewrite <- (list_fmap_id (sorted _)) at 2. by apply list_fmap_ext.
Qed.

Lemma elem_of_site_choices (df : Dataset) (s : string) :
  s ∈ site_choices df ↔ ∃ r, r ∈ df ∧ launch_site r = s.
Proof.
  rewrite site_choices_sorted.
  destruct (sorted_unique_sites (launch_site <$> df)) as (_ & _ & ->).
  rewrite list_elem_of_fmap. naive_solver.
Qed.

Lemma NoDup_site_choices (df : Dataset) : NoDup (site_choices df).
Proof.
  rewrite site_choices_sorted.
  by destruct (sorted_unique_sites (launch_site <$> df)) as (_ & ? & _).
Qed.

(** X4: when no launch site is itself called "ALL", the scatter of "ALL"
    is made of the scatters of the sites the dropdown offers: its points
    are, with their multiplicity, those drawn for each offered site in
    turn. *)
Theorem scatter_all_is_sum_of_sites (df : Dataset) (lo hi : Z) :
  (∀ r, r ∈ df → launch_site r ≠ "ALL") →
  drawn df "ALL" lo hi ≡ₚ site_choices df ≫= (λ s, drawn df s lo hi).
Proof.
  intros Hnames.
  set (D := filter (λ r, lo ≤ payload_mass r ∧ payload_mass r ≤ hi) df).
  trans (site_choices df
           ≫= (λ s, point_of <$> filter (λ r, launch_site r = s) D)).
  - rewrite drawn_Permutation, <- fmap_bind_list.
    rewrite (groups_Permutation launch_site (site_choices df) D).
    + f_equiv.
      cut (filter (selected "ALL" lo hi) df = D); [by intros ->|].
      apply list_filter_iff. unfold selected. naive_solver.
    + apply NoDup_site_choices.
    + intros r [_ Hr]%list_elem_of_filter.
      apply elem_of_site_choices. by exists r.
  - apply bind_Permutation_ext. intros s Hs.
    rewrite drawn_Permutation. unfold D. rewrite list_filter_filter.
    cut (filter (λ r, launch_site r = s
                      ∧ lo ≤ payload_mass r ∧ payload_mass r ≤ hi) df
         = filter (selected s lo hi) df); [by intros ->|].
    apply list_filter_iff. intros r. unfold selected.
    apply elem_of_site_choices in Hs as (r' & Hr' & <-).
    specialize (Hnames r' Hr'). naive_solver.
Qed.

Lemma scatter_all_is_sum_of_sites_witness :
  (∀ r, r ∈ example_records → launch_site r ≠ "ALL") ∧
  drawn example_records "ALL" 0 10000
  ≡ₚ site_choices example_records ≫= (λ s, drawn example_records s 0 10000).
Proof.
  assert (∀ r, r ∈ example_records → launch_site r ≠ "ALL") as Hnames.
  { intros r Hr. unfold example_records in Hr.
    repeat (apply elem_of_cons in Hr as [-> | Hr]); try done.
    by apply elem_of_nil in Hr. }
  split; [done|].
  apply (scatter_all_is_sum_of_sites example_records 0 10000 Hnames).
Defined.

(** X5: the first picture shows everything: for a frame with at least one
    record the initial selection of the layout (the dropdown's initial
    value with the slider's initial range) has ordered bounds and the
    scatter callback draws every record of the frame, each once. *)
Theorem initial_view_shows_all (df : Dataset) :
  df ≠ [] →
  ∃ dd slider lo hi,
    find_dropdown (app_layout (build_app df)) = Some dd ∧
    find_slider (app_layout (build_app df)) = Some slider ∧
    rs_value slider = [Int lo; Int hi] ∧
    lo ≤ hi ∧
    drawn df (dd_value dd) lo hi ≡ₚ point_of <$> df.
Proof.
  intros Hne. destruct df as [|r0 rs]; [done|].
  destruct (foldr_min_spec (payload_mass r0) (payload_mass <$> rs))
    as [_ Hmin].
  destruct (foldr_max_spec (payload_mass r0) (payload_mass <$> rs))
    as [_ Hmax].
  rewrite <- fmap_cons in Hmin, Hmax.
  eexists _, _, _, _. split; [reflexivity|]. split; [reflexivity|].
  split; [reflexivity|]. split.
  - etrans; [apply (Hmin (payload_mass r0)) | apply (Hmax (payload_mass r0))];
      left.
  - rewrite drawn_Permutation. simpl dd_value.
    rewrite filter_all; [done|].
    intros r Hr. split; [|by left].
    split; [apply Hmin | apply Hmax]; by apply list_elem_of_fmap_2.
Qed.

Lemma initial_view_shows_all_witness :
  example_records ≠ [] ∧
  ∃ dd slider lo hi,
    find_dropdown (app_layout (build_app example_records)) = Some dd ∧
    find_slider (app_layout (build_app example_records)) = Some slider ∧
    rs_value slider = [Int lo; Int hi] ∧
    lo ≤ hi ∧
    drawn example_records (dd_value dd) lo hi ≡ₚ point_of <$> example_records.
Proof.
  split; [done|]. apply (initial_view_shows_all example_records). done.
Defined.

(** ** The module body *)

(** X7: what the module body does to the outside: it reads no file but
    the one it checked, and only when that file exists; it starts the
    listener only when it runs as the main module and the file exists,
    then on 0.0.0.0:8050 and as its last effect, after the read. *)
Theorem startup_effects (w : World) (is_main : bool) :
  (∀ path, ReadCsv path ∈ (start w is_main).2 ↔
     path = CSV_PATH ∧ is_Some (w CSV_PATH)) ∧
  (∀ host port, Run host port ∈ (start w is_main).2 ↔
     is_main = true ∧ is_Some (w CSV_PATH) ∧ host = "0.0.0.0" ∧ port = 8050) ∧
  (is_main = true → is_Some (w CSV_PATH) →
   (start w is_main).2
   = [PathExists CSV_PATH; ReadCsv CSV_PATH; Run "0.0.0.0" 8050]).
Proof.
  assert (∀ e : effect, e ∈ (start w is_main).2 ↔
            e = PathExists CSV_PATH ∨
            (e = ReadCsv CSV_PATH ∧ is_Some (w CSV_PATH)) ∨
            (e = Run "0.0.0.0" 8050 ∧ is_main = true ∧ is_Some (w CSV_PATH)))
    as Hin.
  { intros e.
    unfold start, module_body, mbind, Script_bind, os_path_exists, pd_read_csv.
    destruct (w CSV_PATH) as [d|]; destruct is_main; simpl;
      rewrite ?elem_of_cons, elem_of_nil;
      (split; [intros Hor | intros Hor]);
      repeat match goal with
             | H : _ ∨ _ |- _ => destruct H
             | H : _ ∧ _ |- _ => destruct H
             | H : is_Some None |- _ => by apply is_Some_None in H
             | H : False |- _ => destruct H
             | H : false = true |- _ => discriminate H
             end; subst; eauto 6. }
  split; [|split].
  - intros path. rewrite Hin. split.
    + intros [[=] | [[[= ->] ?] | [[=] _]]]. done.
    + intros [-> ?]. right; left. done.
  - intros host port. rewrite Hin. split.
    + intros [[=] | [[[=] _] | [[= -> ->] [? ?]]]]. done.
    + intros (-> & ? & -> & ->). right; right. done.
  - intros -> [d Hd].
    unfold start, module_body, mbind, Script_bind, os_path_exists, pd_read_csv.
    by rewrite Hd.
Qed.

Lemma startup_effects_witness :
  is_Some (example_folder CSV_PATH) ∧
  (start example_folder true).2
  = [PathExists CSV_PATH; ReadCsv CSV_PATH; Run "0.0.0.0" 8050].
Proof.
  assert (is_Some (example_folder CSV_PATH)) as Hfile by by eexists.
  split; [done|].
  by apply (proj2 (proj2 (startup_effects example_folder true))).
Defined.

(** ** The pie callback *)

Lemma unique_from_NoDup {A} `{EqDecision A} (seen l : list A) :
  NoDup l → (∀ x, x ∈ l → x ∉ seen) → unique_from seen l = l.
Proof.
  revert seen. induction l as [|x l IH]; intros seen Hnd Hseen; [done|].
  apply NoDup_cons in Hnd as [Hx Hnd]. simpl.
  rewrite decide_False by (apply Hseen; left). f_equal.
  apply IH; [done|]. intros y Hy [-> | Hy']%elem_of_cons; [done|].
  by apply (Hseen y); [right|].
Qed.

(** With distinct labels the slices are the entries, in their order. *)
Lemma slices_of_distinct (fig : PieFigure) :
  NoDup (pie_labels fig) →
  length (pie_labels fig) = length (pie_values fig) →
  slices fig
  = (λ e, (e.1, numeric e.2)) <$> zip (pie_labels fig) (pie_values fig).
Proof.
  intros Hnd Hlen. unfold slices.
  set (entries := zip (pie_labels fig) (pie_values fig)).
  assert (entries.*1 = pie_labels fig) as Hl by (apply fst_zip; lia).
  unfold unique. rewrite unique_from_NoDup;
    [|done|intros ? _; apply not_elem_of_nil].
  rewrite <- Hl in Hnd |- *. rewrite <- list_fmap_compose.
  apply list_fmap_ext. intros i [k c] Hi. simpl.
  rewrite (filter_key_NoDup fst entries (k, c));
    [simpl; f_equal; lia | done | by eapply list_elem_of_lookup_2].
Qed.

Lemma site_slices (df : Dataset) (site : string) :
  site ≠ "ALL" →
  ∃ fig, update_pie Pandas1 df site = Ok fig ∧
    slices fig
    = (λ p, (relabel outcome_names p.1, Z.of_nat p.2)) <$> site_counts df site.
Proof.
  intros Hsite. rewrite update_pie_site by done.
  eexists; split; [done|].
  rewrite slices_of_distinct; simpl;
    [|by apply NoDup_site_labels|by rewrite !length_fmap].
  rewrite zip_fmap_same, <- list_fmap_compose. done.
Qed.

Lemma elem_of_site_counts (df : Dataset) (site : string) (p : cell * nat) :
  p ∈ site_counts df site ↔
  ∃ r, r ∈ df ∧ launch_site r = site ∧ p.1 = Int (class r) ∧
       p.2 = length (filter (λ r', launch_site r' = site
                                   ∧ class r' = class r) df).
Proof.
  unfold site_counts. rewrite sort_counts_Permutation, list_elem_of_fmap.
  setoid_rewrite elem_of_unique. unfold site_classes at 2.
  setoid_rewrite list_elem_of_fmap. setoid_rewrite list_elem_of_filter.
  destruct p as [c n]; simpl. split.
  - intros (v & [= -> ->] & r & -> & Hs & Hr). exists r.
    unfold site_classes. by rewrite count_class.
  - intros (r & Hr & Hs & -> & ->). exists (Int (class r)).
    unfold site_classes. rewrite count_class. naive_solver.
Qed.

Lemma length_bind_sumZ {A B} (F : A → list B) (ks : list A) :
  Z.of_nat (length (ks ≫= F))
  = sumZ ((λ k, Z.of_nat (length (F k))) <$> ks).
Proof.
  induction ks as [|k ks IH]; [done|].
  rewrite bind_cons, length_app, fmap_cons. simpl. lia.
Qed.

Lemma count_unique_total {A} `{EqDecision A} (l : list A) :
  sumZ ((λ v, Z.of_nat (count_occ_of v l)) <$> unique l)
  = Z.of_nat (length l).
Proof.
  unfold count_occ_of.
  rewrite <- (length_bind_sumZ (λ v, filter (λ y, y = v) l)).
  pose proof (unique_groups_Permutation id l) as Hperm.
  rewrite list_fmap_id in Hperm. by rewrite Hperm.
Qed.

(** X8: whatever the class values, the pie of a site accounts for every
    record of the site exactly once: its slice values add up to the number
    of records of the site (pandas 1.x names). *)
Theorem single_site_pie_total (df : Dataset) (site : string) :
  site ≠ "ALL" →
  ∃ fig, update_pie Pandas1 df site = Ok fig ∧
    sumZ (slices fig).*2
    = Z.of_nat (length (filter (λ r, launch_site r = site) df)).
Proof.
  intros Hsite. destruct (site_slices df site Hsite) as (fig & Hfig & Hsl).
  exists fig. split; [done|]. rewrite Hsl.
  rewrite <- list_fmap_compose. unfold site_counts.
  rewrite sort_counts_Permutation, <- list_fmap_compose.
  etrans; [apply (count_unique_total (site_classes df site))|].
  unfold site_classes. by rewrite length_fmap.
Qed.

Lemma single_site_pie_total_witness :
  "SiteA" ≠ "ALL" ∧
  ∃ fig, update_pie Pandas1 example_records "SiteA" = Ok fig ∧
    sumZ (slices fig).*2
    = Z.of_nat (length (filter (λ r, launch_site r = "SiteA") example_records)).
Proof.
  split; [done|]. by apply (single_site_pie_total example_records "SiteA").
Defined.

(** X9: a selection that matches no record is answered, not refused: for a
    site other than "ALL" the pie has no slice exactly when the frame has
    no record of that site, and then the scatter has no point either,
    whatever the range (pandas 1.x names). *)
Theorem unknown_site_is_empty (df : Dataset) (site : string) :
  site ≠ "ALL" →
  ∃ fig, update_pie Pandas1 df site = Ok fig ∧
    (slices fig = [] ↔ ∀ r, r ∈ df → launch_site r ≠ site) ∧
    ((∀ r, r ∈ df → launch_site r ≠ site) →
     ∀ lo hi, drawn df site lo hi = []).
Proof.
  intros Hsite. destruct (site_slices df site Hsite) as (fig & Hfig & Hsl).
  exists fig. split; [done|]. split; [split|].
  - intros Hnil r Hr Hs.
    assert ((Int (class r),
             length (filter (λ r', launch_site r' = site
                                   ∧ class r' = class r) df))
            ∈ site_counts df site) as Hin
      by (apply elem_of_site_counts; by exists r).
    rewrite Hsl in Hnil. apply fmap_nil_inv in Hnil.
    rewrite Hnil in Hin. by apply elem_of_nil in Hin.
  - intros Hnone. rewrite Hsl.
    destruct (site_counts df site) as [|p l] eqn:Hcounts; [done|].
    assert (p ∈ site_counts df site) as Hp by (rewrite Hcounts; left).
    apply elem_of_site_counts in Hp as (r & Hr & Hs & _).
    by destruct (Hnone r Hr).
  - intros Hnone lo hi. apply Permutation_nil_r.
    rewrite drawn_Permutation, filter_none; [done|].
    intros r Hr [_ [? | ?]]; [done | by apply (Hnone r)].
Qed.

Lemma unknown_site_is_empty_witness :
  "KSC LC-39A" ≠ "ALL" ∧
  ∃ fig, update_pie Pandas1 example_records "KSC LC-39A" = Ok fig ∧
    (slices fig = [] ↔ ∀ r, r ∈ example_records → launch_site r ≠ "KSC LC-39A") ∧
    ((∀ r, r ∈ example_records → launch_site r ≠ "KSC LC-39A") →
     ∀ lo hi, drawn example_records "KSC LC-39A" lo hi = []).
Proof.
  split; [done|].
  by apply (unknown_site_is_empty example_records "KSC LC-39A").
Defined.

(** X10: the slices of the pie of a site come in descending size: no slice
    is larger than one before it (pandas 1.x names). *)
Theorem single_site_pie_descending (df : Dataset) (site : string) :
  site ≠ "ALL" →
  ∃ fig, update_pie Pandas1 df site = Ok fig ∧
    StronglySorted (λ a b, b.2 ≤ a.2) (slices fig).
Proof.
  intros Hsite. destruct (site_slices df site Hsite) as (fig & Hfig & Hsl).
  exists fig. split; [done|]. rewrite Hsl.
  apply (StronglySorted_fmap _ count_ge).
  - unfold count_ge. intros a b Hab. simpl. lia.
  - unfold site_counts. apply StronglySorted_sort_counts.
Qed.

Lemma single_site_pie_descending_witness :
  "SiteA" ≠ "ALL" ∧
  ∃ fig, update_pie Pandas1 example_records "SiteA" = Ok fig ∧
    StronglySorted (λ a b, b.2 ≤ a.2) (slices fig).
Proof.
  split; [done|].
  by apply (single_site_pie_descending example_records "SiteA").
Defined.

Lemma filter_length_pos {A} (P : A → Prop) `{∀ x, Decision (P x)}
    (l : list A) :
  (0 < length (filter P l))%nat ↔ ∃ x, x ∈ l ∧ P x.
Proof.
  split.
  - destruct (filter P l) as [|x k] eqn:Hf; [simpl; lia|]. intros _.
    assert (x ∈ filter P l) as Hx by (rewrite Hf; left).
    apply list_elem_of_filter in Hx as [? ?]. by exists x.
  - intros (x & Hx & HP).
    assert (x ∈ filter P l) as Hin by by apply list_elem_of_filter.
    destruct (filter P l); [by apply elem_of_nil in Hin | simpl; lia].
Qed.

(** X11: the two pies agree: when every class is 0 or 1, a site has a
    slice of [v > 0] in the pie of "ALL" exactly when the pie of that site
    has a "Success" slice of [v] (pandas 1.x names). *)
Theorem pies_agree_on_successes (df : Dataset) (site : string) :
  binary df →
  site ≠ "ALL" →
  ∃ fall fsite,
    update_pie Pandas1 df "ALL" = Ok fall ∧
    update_pie Pandas1 df site = Ok fsite ∧
    ∀ v, 0 < v →
      (Str site, v) ∈ slices fall ↔ (Str "Success", v) ∈ slices fsite.
Proof.
  intros Hbin Hsite.
  destruct (site_slices df site Hsite) as (fsite & Hfsite & Hsl).
  eexists _, fsite. split.
  { unfold update_pie. rewrite decide_True by done. apply px_pie_all_sites. }
  split; [done|]. intros v Hv.
  set (N := length (filter (λ r, launch_site r = site ∧ class r = 1) df)).
  assert (sumZ (class <$> filter (λ r, launch_site r = site) df)
          = Z.of_nat N) as Hsum.
  { rewrite sumZ_indicator.
    - unfold N. do 2 f_equal. rewrite list_filter_filter.
      apply list_filter_iff. naive_solver.
    - intros r [_ Hr]%list_elem_of_filter. by apply Hbin. }
  rewrite elem_of_slices. simpl. rewrite site_group_sum, Hsum.
  rewrite Hsl. split.
  - intros [_ ->].
    assert (0 < N)%nat as (r & Hr & Hs & Hc)%filter_length_pos by lia.
    apply list_elem_of_fmap. exists (Int 1, N). split; [done|].
    apply elem_of_site_counts. exists r. simpl. by rewrite Hc.
  - intros ([c n] & Heq & Hp)%list_elem_of_fmap.
    apply elem_of_site_counts in Hp as (r & Hr & Hs & Hc & Hn).
    simpl in *. injection Heq as Hname ->. subst c n.
    assert (class r = 1) as Hone by (by apply relabel_outcome_inj).
    rewrite Hone. split; [|done].
    apply list_elem_of_fmap. exists r. by rewrite Hs.
Qed.

Lemma pies_agree_on_successes_witness :
  binary example_records ∧ "SiteB" ≠ "ALL" ∧
  ∃ fall fsite,
    update_pie Pandas1 example_records "ALL" = Ok fall ∧
    update_pie Pandas1 example_records "SiteB" = Ok fsite ∧
    ∀ v, 0 < v →
      (Str "SiteB", v) ∈ slices fall ↔ (Str "Success", v) ∈ slices fsite.
Proof.
  split; [apply binary_example_records|]. split; [done|].
  apply (pies_agree_on_successes example_records "SiteB");
    [apply binary_example_records | done].
Defined.

(** X12: the pie of "ALL" and the dropdown list the same sites: the slice
    labels are, each once, the sites the dropdown offers, so there are as
    many slices as offered sites (a site without a success keeps its
    slice). *)
Theorem all_sites_pie_matches_dropdown (api : pandas_api) (df : Dataset) :
  ∃ fig, update_pie api df "ALL" = Ok fig ∧
    (slices fig).*1 ≡ₚ Str <$> site_choices df ∧
    length (slices fig) = length (site_choices df).
Proof.
  unfold update_pie. rewrite decide_True by done. rewrite px_pie_all_sites.
  eexists; split; [done|].
  assert ((slices
             {| pie_labels := (λ r, Str (launch_site r)) <$> df;
                pie_values := (λ r, Int (class r)) <$> df;
                pie_title := "Total Successful Launches by Site" |}).*1
          ≡ₚ Str <$> site_choices df) as Hperm.
  { apply NoDup_Permutation.
    - apply NoDup_slices.
    - apply NoDup_fmap_2; [by intros ?? [=] | apply NoDup_site_choices].
    - intros k. rewrite slices_labels, elem_of_unique. simpl.
      rewrite !list_elem_of_fmap. setoid_rewrite elem_of_site_choices.
      naive_solver. }
  split; [done|].
  apply Permutation_length in Hperm. by rewrite !length_fmap in Hperm.
Qed.

(** X13: the option values of the dropdown are pairwise distinct exactly
    when no launch site of the frame is itself called "ALL"; a site of
    that name would share its value with the "All Sites" option. *)
Theorem dropdown_values_distinct (df : Dataset) :
  NoDup (opt_value <$> dd_options (site_dropdown df))
  ↔ ∀ r, r ∈ df → launch_site r ≠ "ALL".
Proof.
  change (opt_value <$> dd_options (site_dropdown df))
    with ("ALL" :: site_choices df).
  rewrite NoDup_cons, elem_of_site_choices. split.
  - intros [Hnot _] r Hr Hs. apply Hnot. by exists r.
  - intros Hnames. split; [|apply NoDup_site_choices].
    intros (r & Hr & Hs). by apply (Hnames r).
Qed.

(** X14: the names of the counts frame decide whether a site can be
    selected at all: with the names pandas 2 gives ("class", "count") the
    renaming leaves no "Outcome" column and the pie callback raises for
    every selection other than "ALL", while the pie of "ALL" is the same
    under both conventions. *)
Theorem pandas2_names_break_site_pie (df : Dataset) (site : string) :
  site ≠ "ALL" →
  update_pie Pandas2 df site
  = Raise (ValueError
      "Value of 'names' is not the name of a column in 'data_frame'") ∧
  update_pie Pandas2 df "ALL" = update_pie Pandas1 df "ALL".
Proof.
  intros Hsite. split; [|done].
  unfold update_pie. rewrite decide_False by done.
  by rewrite getitem_class.
Qed.

Lemma pandas2_names_break_site_pie_witness :
  "SiteA" ≠ "ALL" ∧
  update_pie Pandas2 example_records "SiteA"
  = Raise (ValueError
      "Value of 'names' is not the name of a column in 'data_frame'") ∧
  update_pie Pandas2 example_records "ALL"
  = update_pie Pandas1 example_records "ALL".
Proof.
  split; [done|].
  by apply (pandas2_names_break_site_pie example_records "SiteA").
Defined.

(** C2, at an input where the code fails it: with the names pandas 2 gives
    to the counts frame, the renamed frame of the site "SiteA" of the
    example records (one success, one failure) has the columns "Count" and
    "count" and none called "Outcome", and the callback raises where the
    claim asks for Success: 1, Failure: 1, the figure the same code gives
    under the pandas 1.x names. *)
Theorem single_site_pie_fails_on_pandas2 :
  columns
    (rename_columns [("index", "Outcome"); ("class", "Count")]
       (reset_index
          (rename_index [(Int 0, Str "Failure"); (Int 1, Str "Success")]
             (value_counts Pandas2 "class"
                (site_classes example_records "SiteA")))))
  = ["Count"; "count"] ∧
  update_pie Pandas2 example_records "SiteA"
  = Raise (ValueError
      "Value of 'names' is not the name of a column in 'data_frame'") ∧
  (∃ fig, update_pie Pandas1 example_records "SiteA" = Ok fig ∧
     slices fig = [(Str "Success", 1); (Str "Failure", 1)]).
Proof.
  split; [reflexivity|]. split; [reflexivity|].
  eexists. split; reflexivity.
Qed.

(** ** Reversed bounds *)

Lemma all_sites_slices_nil (df : Dataset) (title : string) :
  slices {| pie_labels := (λ r, Str (launch_site r)) <$> df;
            pie_values := (λ r, Int (class r)) <$> df;
            pie_title := title |} = [] ↔ df = [].
Proof.
  split; [|by intros ->].
  intros Hnil. destruct df as [|r rs]; [done|].
  assert (Str (launch_site r)
          ∈ (slices {| pie_labels := (λ r, Str (launch_site r)) <$> r :: rs;
                       pie_values := (λ r, Int (class r)) <$> r :: rs;
                       pie_title := title |}).*1) as Hin.
  { rewrite slices_labels, elem_of_unique. simpl. left. }
  rewrite Hnil in Hin. by apply elem_of_nil in Hin.
Qed.

(** C5, as the code has it: a request with reversed bounds, [hi < lo], gets
    a scatter without an exception and without a point.  The pie does not
    take the payload range: its result is the one of the site selection
    alone, the same as for any other range; under "ALL" it is a figure;
    and whenever it is a figure, it has no slice exactly when no record
    matches the site selection, so reversed bounds do not empty it. *)
Theorem degenerate_range_scatter_empty (api : pandas_api) (app : App)
    (fs : FilterState) :
  fs_hi fs < fs_lo fs →
  (∃ fig, fire api app fs scatter_callback = Ok (Scatter fig) ∧
          points fig = []) ∧
  (∀ fs', fs_site fs' = fs_site fs →
     fire api app fs' pie_callback = fire api app fs pie_callback) ∧
  (fs_site fs = "ALL" → ∃ fig, fire api app fs pie_callback = Ok (Pie fig)) ∧
  (∀ fig, fire api app fs pie_callback = Ok (Pie fig) →
     slices fig = [] ↔
     ∀ r, r ∈ app_df app →
          ¬ (fs_site fs = "ALL" ∨ launch_site r = fs_site fs)).
Proof.
  intros Hrev. split; [|split; [|split]].
  - rewrite fire_scatter.
    destruct (update_scatter_points (app_df app) (fs_site fs)
                (fs_lo fs) (fs_hi fs)) as (fig & -> & Hpts).
    exists fig. split; [done|].
    rewrite filter_none in Hpts; [by apply Permutation_nil_r in Hpts|].
    intros r _ [[? ?] _]. lia.
  - intros fs' Hs. by rewrite !fire_pie, Hs.
  - intros Hall. rewrite fire_pie, Hall. unfold update_pie.
    rewrite decide_True by done. rewrite px_pie_all_sites. by eexists.
  - intros fig. rewrite fire_pie.
    destruct (decide (fs_site fs = "ALL")) as [Hall | Hsite].
    + rewrite Hall. unfold update_pie. rewrite decide_True by done.
      rewrite px_pie_all_sites. intros [= <-].
      rewrite all_sites_slices_nil. split.
      * intros -> r Hr. by apply elem_of_nil in Hr.
      * intros Hnone. destruct (app_df app) as [|r rs]; [done|].
        destruct (Hnone r); [left | by left].
    + destruct api.
      * destruct (site_slices (app_df app) (fs_site fs) Hsite)
          as (fig' & -> & Hsl).
        intros [= <-]. rewrite Hsl. split.
        -- intros Hnil%fmap_nil_inv r Hr [? | Hs]; [done|].
           assert ((Int (class r),
                    length (filter (λ r', launch_site r' = fs_site fs
                                          ∧ class r' = class r) (app_df app)))
                   ∈ site_counts (app_df app) (fs_site fs)) as Hin
             by (apply elem_of_site_counts; by exists r).
           rewrite Hnil in Hin. by apply elem_of_nil in Hin.
        -- intros Hnone.
           destruct (site_counts (app_df app) (fs_site fs)) as [|p l]
             eqn:Hcounts; [done|].
           assert (p ∈ site_counts (app_df app) (fs_site fs)) as Hp
             by (rewrite Hcounts; left).
           apply elem_of_site_counts in Hp as (r & Hr & Hs & _).
           destruct (Hnone r Hr). by right.
      * by rewrite update_pie_site_pandas2.
Qed.

Lemma degenerate_range_scatter_empty_witness :
  (fs_hi reversed_all < fs_lo reversed_all ∧
   (∃ fig, fire Pandas1 (build_app example_records) reversed_all
             scatter_callback = Ok (Scatter fig) ∧ points fig = []) ∧
   (∃ fig, fire Pandas1 (build_app example_records) reversed_all
             pie_callback = Ok (Pie fig))) ∧
  (fs_hi siteA_reversed < fs_lo siteA_reversed ∧
   (∃ fig, fire Pandas1 (build_app example_records) siteA_reversed
             scatter_callback = Ok (Scatter fig) ∧ points fig = []) ∧
   (∀ fig, fire Pandas1 (build_app example_records) siteA_reversed
             pie_callback = Ok (Pie fig) →
      slices fig = [] ↔
      ∀ r, r ∈ app_df (build_app example_records) →
           ¬ (fs_site siteA_reversed = "ALL"
              ∨ launch_site r = fs_site siteA_reversed))).
Proof.
  assert (fs_hi reversed_all < fs_lo reversed_all) as Hall by done.
  assert (fs_hi siteA_reversed < fs_lo siteA_reversed) as Hsite by done.
  pose proof (degenerate_range_scatter_empty Pandas1
                (build_app example_records) reversed_all Hall)
    as (Hs1 & _ & Hp1 & _).
  pose proof (degenerate_range_scatter_empty Pandas1
                (build_app example_records) siteA_reversed Hsite)
    as (Hs2 & _ & _ & Hp2).
  split; [split; [done | split; [done | by apply Hp1]] |].
  split; [done | split; [done | exact Hp2]].
Defined.

(** Under the pandas 1.x names the pie of a site with records keeps its
    slices when the bounds are reversed. *)
Example degenerate_range_site_pie_example :
  fire Pandas1 (build_app example_records) siteA_reversed pie_callback
  = fire Pandas1 (build_app example_records) siteA_full pie_callback ∧
  ∃ fig, fire Pandas1 (build_app example_records) siteA_reversed pie_callback
         = Ok (Pie fig) ∧
    slices fig = [(Str "Success", 1); (Str "Failure", 1)].
Proof. split; [reflexivity|]. eexists. split; reflexivity. Qed.
